(** * Korean election results crawler: acquisition pipeline and table extraction

    A shallow embedding of [election_crawler.py] and [html_to_csv_parser.py].

    Python [str] values are lists of Unicode code points, [bytes] values are
    lists of bytes, dictionaries are finite maps, and code that raises is
    embedded in an error monad whose failures carry the class of the raised
    exception.  The crawler runs against an explicit environment (transport,
    clock, random draws, file system); log output is left out. *)

From Stdlib Require Import ZArith NArith QArith Lia Lqa List Bool String Ascii DecimalNat.
From Stdlib Require Strings.Byte.
From stdpp Require Import base option list gmap sorting.

Local Open Scope N_scope.

(** ** Text *)

(** A Python [str]: its sequence of code points. *)
Abbreviation str := (list N).

(** The code points of an ASCII literal. *)
Definition lit (s : string) : str := map N_of_ascii (list_ascii_of_string s).

(** [str.isspace] for one code point; the same set drives [str.strip] and
    the regular expression class [\s] on [str] patterns. *)
Definition isspace (c : N) : bool :=
  ((0x09 <=? c) && (c <=? 0x0d)) || ((0x1c <=? c) && (c <=? 0x20))
  || (c =? 0x85) || (c =? 0xa0) || (c =? 0x1680)
  || ((0x2000 <=? c) && (c <=? 0x200a))
  || (c =? 0x2028) || (c =? 0x2029) || (c =? 0x202f) || (c =? 0x205f)
  || (c =? 0x3000).

Fixpoint lstrip (s : str) : str :=
  match s with
  | [] => []
  | c :: r => if isspace c then lstrip r else s
  end.

Definition rstrip (s : str) : str := reverse (lstrip (reverse s)).

(** [s.strip()] *)
Definition strip (s : str) : str := rstrip (lstrip s).

(** [re.sub(r'\s+', ' ', s)]: every maximal run of whitespace becomes one
    space.  [in_run] records that the previous character belonged to a run
    that has already been replaced. *)
Fixpoint sub_ws_from (in_run : bool) (s : str) : str :=
  match s with
  | [] => []
  | c :: r =>
      if isspace c
      then (if in_run then sub_ws_from true r else 0x20 :: sub_ws_from true r)
      else c :: sub_ws_from false r
  end.

Definition re_sub_ws (s : str) : str := sub_ws_from false s.

(** [s.replace(old, new)] for one-character [old] and [new]. *)
Definition replace_char (old new : N) (s : str) : str :=
  map (fun c => if c =? old then new else c) s.

(** [ElectionHTMLParser._clean_text]; [None] stands for a falsy non-string
    argument. *)
Definition _clean_text (text : option str) : str :=
  match text with
  | None => []
  | Some [] => []
  | Some t =>
      let t := re_sub_ws (strip t) in
      replace_char 0x0d 0x20 (replace_char 0x0a 0x20 t)
  end.

(** Normal form of cleaned text: every whitespace character is a single
    space that does not follow another whitespace character. *)
Fixpoint single_spaced (after_space : bool) (s : str) : bool :=
  match s with
  | [] => true
  | c :: r =>
      if isspace c then negb after_space && (c =? 0x20) && single_spaced true r
      else single_spaced false r
  end.

(** The text left by [strip] and the whitespace substitution. *)
Definition collapsed (t : str) : str := re_sub_ws (strip t).

(** ** Exceptions *)

(** The exception classes the two modules raise or catch.  All of them derive
    from [Exception]; asynchronous interrupts are not part of the model. *)
Inductive exn_class :=
  | RequestException | ConnectionError | Timeout | HTTPError | JSONDecodeError
  | ValueError | UnicodeDecodeError | UnicodeEncodeError | TypeError | KeyError
  | AttributeError | IndexError | OSError | ElectionCrawlerError | Exception.

#[global] Instance exn_class_eq_dec : EqDecision exn_class.
Proof. solve_decision. Defined.

(** [issubclass(c, d)] for the classes above.  The JSON error of [requests]
    derives from both [RequestException] and [ValueError]. *)
Definition issubclass (c d : exn_class) : bool :=
  bool_decide (c = d) ||
  match c, d with
  | _, Exception => true
  | (ConnectionError | Timeout | HTTPError | JSONDecodeError), RequestException => true
  | (JSONDecodeError | UnicodeDecodeError | UnicodeEncodeError), ValueError => true
  | _, _ => false
  end.

(** An exception value: its class and its [str(e)]. *)
Record exn := Exn { exn_cls : exn_class; exn_str : str }.

Definition isinstance (e : exn) (cs : list exn_class) : bool :=
  existsb (issubclass (exn_cls e)) cs.

(** The outcome of code that may raise. *)
Inductive result (A : Type) : Type :=
  | Ok (a : A)
  | Raise (e : exn).
Arguments Ok {A} a.
Arguments Raise {A} e.

#[global] Instance result_ret : MRet result := fun A a => Ok a.
#[global] Instance result_bind : MBind result := fun A B f r =>
  match r with Ok a => f a | Raise e => Raise e end.
#[global] Instance result_fmap : FMap result := fun A B f r =>
  match r with Ok a => Ok (f a) | Raise e => Raise e end.

(** ** Table extraction ([html_to_csv_parser.py]) *)

(** A [th]/[td] element as the parser reads it: [cell.get_text()], and the
    values of [int(cell.get('colspan', 1))] and [int(cell.get('rowspan', 1))],
    which raise [ValueError] on an attribute that is not an integer literal. *)
Record cell := Cell {
  get_text : str;
  colspan : result Z;
  rowspan : result Z
}.

(** A [tr]: the result of [row.find_all(['th', 'td'])]. *)
Abbreviation row := (list cell).

(** A [table]: the rows of its [thead] and [tbody] when it has them, and
    [table.find_all('tr')]. *)
Record table := Table {
  thead : option (list row);
  tbody : option (list row);
  all_tr : list row
}.

(** Python slices [s[:k]] and [s[k:]]; a negative bound counts from the end. *)
Definition slice_to {A} (k : Z) (s : list A) : list A :=
  take (Z.to_nat (if (k <? 0)%Z then Z.of_nat (length s) + k else k)%Z) s.
Definition slice_from {A} (k : Z) (s : list A) : list A :=
  drop (Z.to_nat (if (k <? 0)%Z then Z.of_nat (length s) + k else k)%Z) s.

Definition cell_text (c : cell) : str := _clean_text (Some (get_text c)).

(** "후보자별 득표수", the label of the composite candidate-votes column. *)
Definition candidate_votes_label : str :=
  [0xd6c4; 0xbcf4; 0xc790; 0xbcc4; 0x20; 0xb4dd; 0xd45c; 0xc218].

(** One iteration of [for cell in first_row], on the loop state
    [(headers, second_row)]. *)
Definition header_step (st : list str * row) (c : cell) : result (list str * row) :=
  let '(headers, second_row) := st in
  let text := cell_text c in
  colspan ← colspan c;
  rowspan ← rowspan c;
  if (rowspan =? 2)%Z then mret (headers ++ [text], second_row)
  else if bool_decide (text = candidate_votes_label) then
    let candidate_cells := slice_to colspan second_row in
    mret (headers ++ map cell_text candidate_cells, slice_from colspan second_row)
  else mret (headers ++ [text], second_row).

Fixpoint header_loop (st : list str * row) (first_row : row) : result (list str * row) :=
  match first_row with
  | [] => mret st
  | c :: rest => st' ← header_step st c; header_loop st' rest
  end.

(** The two-row branch of [_extract_headers]. *)
Definition two_row_headers (first_row second_row : row) : result (list str) :=
  '(headers, second_row) ← header_loop ([], second_row) first_row;
  mret (headers ++ map cell_text second_row).

Definition header_rows (t : table) : list row :=
  match thead t with
  | Some rs => rs
  | None => take 2 (all_tr t)
  end.

(** [ElectionHTMLParser._extract_headers] *)
Definition _extract_headers (t : table) : result (list str) :=
  match header_rows t with
  | first_row :: second_row :: _ => two_row_headers first_row second_row
  | [header_cells] => mret (map cell_text header_cells)
  | [] => Raise (Exn IndexError (lit "list index out of range"))
  end.

(** [str(i)] for a non-negative integer. *)
Fixpoint uint_digits (d : Decimal.uint) : str :=
  match d with
  | Decimal.Nil => []
  | Decimal.D0 d => 48 :: uint_digits d
  | Decimal.D1 d => 49 :: uint_digits d
  | Decimal.D2 d => 50 :: uint_digits d
  | Decimal.D3 d => 51 :: uint_digits d
  | Decimal.D4 d => 52 :: uint_digits d
  | Decimal.D5 d => 53 :: uint_digits d
  | Decimal.D6 d => 54 :: uint_digits d
  | Decimal.D7 d => 55 :: uint_digits d
  | Decimal.D8 d => 56 :: uint_digits d
  | Decimal.D9 d => 57 :: uint_digits d
  end.
Definition str_of_nat (n : nat) : str := uint_digits (Nat.to_uint n).
Definition str_of_N (n : N) : str := uint_digits (N.to_uint n).

(** The key cell [i] of a data row is stored under. *)
Definition cell_key (headers : list str) (i : nat) : str :=
  match headers !! i with
  | Some h => h
  | None => lit "Extra_Column_" ++ str_of_nat i
  end.

(** [for i, cell in enumerate(cells)], started at index [i]. *)
Fixpoint map_cells (headers : list str) (i : nat) (cells : row)
    (row_data : gmap str str) : gmap str str :=
  match cells with
  | [] => row_data
  | c :: rest => map_cells headers (S i) rest (<[cell_key headers i := cell_text c]> row_data)
  end.

(** [for header in headers: if header not in row_data: row_data[header] = ''] *)
Fixpoint fill_missing (headers : list str) (row_data : gmap str str) : gmap str str :=
  match headers with
  | [] => row_data
  | h :: rest =>
      fill_missing rest
        (match row_data !! h with None => <[h := []]> row_data | Some _ => row_data end)
  end.

(** The record built for one row with cells. *)
Definition row_record (headers : list str) (cells : row) : gmap str str :=
  fill_missing headers (map_cells headers 0 cells ∅).

Definition data_rows (t : table) : list row :=
  match tbody t with
  | Some rs => rs
  | None =>
      let all_rows := all_tr t in
      if (2 <? length all_rows)%nat then drop 2 all_rows else drop 1 all_rows
  end.

(** [ElectionHTMLParser._extract_data_rows] *)
Definition _extract_data_rows (t : table) (headers : list str) : list (gmap str str) :=
  omap (fun cells : row =>
          match cells with
          | [] => None
          | _ => Some (row_record headers cells)
          end) (data_rows t).

(** The record the ragged-row rule describes: cell [i] under header [i],
    overflow cells under their synthetic key, uncovered headers empty. *)
Definition positional_record (headers : list str) (cells : row)
    (record : gmap str str) : Prop :=
  (∀ i h c, headers !! i = Some h → cells !! i = Some c →
            record !! h = Some (cell_text c)) ∧
  (∀ i c, (length headers ≤ i)%nat → cells !! i = Some c →
          record !! (lit "Extra_Column_" ++ str_of_nat i) = Some (cell_text c)) ∧
  (∀ i h, headers !! i = Some h → (length cells ≤ i)%nat → record !! h = Some []).

(** Header reconstruction as the two-row rule words it: a first-row cell
    spanning both rows is emitted once; the composite label takes its
    [colspan] next cells of the second row; any other label is emitted as it
    is; the unconsumed second-row cells follow. *)
Fixpoint reconstructed (first_row : list (str * nat * Z)) (second_row : list str) : list str :=
  match first_row with
  | [] => second_row
  | (text, k, rows) :: rest =>
      if (rows =? 2)%Z then text :: reconstructed rest second_row
      else if bool_decide (text = candidate_votes_label)
           then take k second_row ++ reconstructed rest (drop k second_row)
           else text :: reconstructed rest second_row
  end.

(** What the rule reads off a first-row cell: its label, its column span
    and its row span. *)
Definition spans (c : cell) (v : str * nat * Z) : Prop :=
  let '(text, k, rows) := v in
  cell_text c = text ∧ colspan c = Ok (Z.of_nat k) ∧ rowspan c = Ok rows.

(** ** Bytes, UTF-8 and string helpers ([election_crawler.py]) *)

Abbreviation bytes := (list Byte.byte).

#[global] Instance byte_eq_dec : EqDecision Byte.byte := Byte.byte_eq_dec.

Fixpoint startswith {A} `{EqDecision A} (s prefix : list A) : bool :=
  match prefix, s with
  | [], _ => true
  | p :: ps, c :: cs => bool_decide (c = p) && startswith cs ps
  | _ :: _, [] => false
  end.

(** [needle in hay] on strings. *)
Fixpoint contains (needle hay : str) : bool :=
  startswith hay needle ||
  match hay with
  | [] => false
  | _ :: r => contains needle r
  end.

(** The text after the first occurrence of [sep], if there is one. *)
Fixpoint after_first (sep s : str) : option str :=
  if startswith s sep then Some (drop (length sep) s)
  else match s with
       | [] => None
       | _ :: r => after_first sep r
       end.

(** The text before the first occurrence of [sep] (all of it without one). *)
Fixpoint before_first (sep s : str) : str :=
  if startswith s sep then []
  else match s with
       | [] => []
       | c :: r => c :: before_first sep r
       end.

(** [s.split(sep)[1]], for a non-empty [sep] that occurs in [s]. *)
Definition split_second (sep s : str) : str :=
  match after_first sep s with
  | Some r => before_first sep r
  | None => []
  end.

Fixpoint lstrip_chars (chars s : str) : str :=
  match s with
  | [] => []
  | c :: r => if bool_decide (c ∈ chars) then lstrip_chars chars r else s
  end.

(** [s.strip(chars)] *)
Definition strip_chars (chars s : str) : str :=
  reverse (lstrip_chars chars (reverse (lstrip_chars chars s))).

Definition is_continuation (b : N) : bool := (0x80 <=? b) && (b <=? 0xbf).

Inductive utf8_item := Scalar (cp : N) | Malformed.

(** One step of the UTF-8 decoder on a non-empty input: the decoded scalar
    or a malformed sequence, and the number of bytes it covers.  A sequence
    cut short by the end of the input is malformed as a whole. *)
Definition utf8_next (s : list N) : utf8_item * nat :=
  match s with
  | [] => (Malformed, 0%nat)
  | ch :: r =>
      if ch <? 0x80 then (Scalar ch, 1%nat)
      else if ch <? 0xc2 then (Malformed, 1%nat)
      else if ch <? 0xe0 then
        match r with
        | [] => (Malformed, 1%nat)
        | ch2 :: _ =>
            if is_continuation ch2
            then (Scalar (N.lor (N.shiftl (N.land ch 0x1f) 6) (N.land ch2 0x3f)), 2%nat)
            else (Malformed, 1%nat)
        end
      else if ch <? 0xf0 then
        match r with
        | [] => (Malformed, 1%nat)
        | ch2 :: r2 =>
            if negb (is_continuation ch2)
               || (if ch2 <? 0xa0 then ch =? 0xe0 else ch =? 0xed)
            then (Malformed, 1%nat)
            else match r2 with
                 | [] => (Malformed, 2%nat)
                 | ch3 :: _ =>
                     if is_continuation ch3
                     then (Scalar (N.lor (N.shiftl (N.land ch 0x0f) 12)
                                     (N.lor (N.shiftl (N.land ch2 0x3f) 6)
                                        (N.land ch3 0x3f))), 3%nat)
                     else (Malformed, 2%nat)
                 end
        end
      else if ch <? 0xf5 then
        match r with
        | [] => (Malformed, 1%nat)
        | ch2 :: r2 =>
            if negb (is_continuation ch2)
               || (if ch2 <? 0x90 then ch =? 0xf0 else ch =? 0xf4)
            then (Malformed, 1%nat)
            else match r2 with
                 | [] => (Malformed, 2%nat)
                 | ch3 :: r3 =>
                     if negb (is_continuation ch3) then (Malformed, 2%nat)
                     else match r3 with
                          | [] => (Malformed, 3%nat)
                          | ch4 :: _ =>
                              if is_continuation ch4
                              then (Scalar
                                      (N.lor (N.shiftl (N.land ch 0x07) 18)
                                         (N.lor (N.shiftl (N.land ch2 0x3f) 12)
                                            (N.lor (N.shiftl (N.land ch3 0x3f) 6)
                                               (N.land ch4 0x3f)))), 4%nat)
                              else (Malformed, 3%nat)
                          end
                 end
        end
      else (Malformed, 1%nat)
  end.

(** The decoder run over the whole input; [skip] counts the bytes already
    covered by the previous step. *)
Fixpoint utf8_items (skip : nat) (s : list N) : list utf8_item :=
  match s with
  | [] => []
  | _ :: r =>
      match skip with
      | S k => utf8_items k r
      | O => let '(item, n) := utf8_next s in item :: utf8_items (n - 1) r
      end
  end.

Inductive error_handler := Strict | Ignore | Replace.

Definition scalar_of (i : utf8_item) : option N :=
  match i with Scalar c => Some c | Malformed => None end.

(** [b.decode('utf-8', errors=...)] *)
Definition decode_utf8 (errors : error_handler) (b : bytes) : result str :=
  let items := utf8_items 0 (map Byte.to_N b) in
  match errors with
  | Ignore => Ok (omap scalar_of items)
  | Replace => Ok (map (λ i, default 0xfffd (scalar_of i)) items)
  | Strict =>
      match mapM scalar_of items with
      | Some s => Ok s
      | None => Raise (Exn UnicodeDecodeError (lit "'utf-8' codec can't decode bytes"))
      end
  end.

(** [str.lower] for one code point.  Besides the ASCII capitals, LATIN
    CAPITAL LETTER I WITH DOT ABOVE and KELVIN SIGN are the only code points
    whose lower case contains an ASCII character; every other code point
    lowers to non-ASCII text and is kept, which leaves the ASCII substring
    tests of this module unchanged. *)
Definition lower_cp (c : N) : str :=
  if (0x41 <=? c) && (c <=? 0x5a) then [c + 32]
  else if c =? 0x130 then [0x69; 0x307]
  else if c =? 0x212a then [0x6b]
  else [c].

Definition lower (s : str) : str := concat (map lower_cp s).

Definition hex_digit (c : N) : option N :=
  if (0x30 <=? c) && (c <=? 0x39) then Some (c - 0x30)
  else if (0x41 <=? c) && (c <=? 0x46) then Some (c - 0x41 + 10)
  else if (0x61 <=? c) && (c <=? 0x66) then Some (c - 0x61 + 10)
  else None.

(** [urllib.parse.unquote_to_bytes] on ASCII text: [%XX] with two hex digits
    becomes the byte, any other [%] is kept. *)
Fixpoint unquote_to_bytes (s : str) : bytes :=
  match s with
  | [] => []
  | c :: r =>
      let keep := default Byte.x00 (Byte.of_N c) :: unquote_to_bytes r in
      if c =? 0x25 then
        match r with
        | h1 :: h2 :: r' =>
            match hex_digit h1, hex_digit h2 with
            | Some a, Some b => default Byte.x00 (Byte.of_N (16 * a + b)) :: unquote_to_bytes r'
            | _, _ => keep
            end
        | _ => keep
        end
      else keep
  end.

(** The maximal runs of ASCII and of non-ASCII characters of a string. *)
Fixpoint ascii_runs (s : str) : list (bool * str) :=
  match s with
  | [] => []
  | c :: r =>
      let a := c <? 0x80 in
      match ascii_runs r with
      | (b, run) :: rest =>
          if eqb a b then (a, c :: run) :: rest else (a, [c]) :: (b, run) :: rest
      | [] => [(a, [c])]
      end
  end.

(** [urllib.parse.unquote(s, encoding='utf-8', errors='replace')] *)
Definition unquote (s : str) : str :=
  if bool_decide (0x25 ∈ s) then
    concat (map (λ '(a, run),
                   if a : bool then
                     match decode_utf8 Replace (unquote_to_bytes run) with
                     | Ok t => t
                     | Raise _ => []
                     end
                   else run) (ascii_runs s))
  else s.

(** [urllib.parse.unquote_plus(s, encoding='utf-8')] *)
Definition unquote_plus (s : str) : str := unquote (replace_char 0x2b 0x20 s).

(** [s.rfind(c)] for a one-character [c]; [-1] when absent. *)
Fixpoint rfind_from (c : N) (s : str) (i found : Z) : Z :=
  match s with
  | [] => found
  | d :: r => rfind_from c r (i + 1)%Z (if d =? c then i else found)
  end.
Definition rfind (c : N) (s : str) : Z := rfind_from c s 0%Z (-1)%Z.

(** [os.path.splitext] ([posixpath]): split at the last dot of the last path
    component, unless that component has only leading dots before it. *)
Definition splitext (p : str) : str * str :=
  let sepIndex := rfind 0x2f p in
  let dotIndex := rfind 0x2e p in
  if (sepIndex <? dotIndex)%Z then
    let filenameIndex := (sepIndex + 1)%Z in
    let before := take (Z.to_nat (dotIndex - filenameIndex)) (drop (Z.to_nat filenameIndex) p) in
    if existsb (λ c, negb (c =? 0x2e)) before
    then (take (Z.to_nat dotIndex) p, drop (Z.to_nat dotIndex) p)
    else (p, [])
  else (p, []).

(** The characters replaced in file names: less-than, greater-than, colon,
    double quote, slash, backslash, vertical bar, question mark, asterisk. *)
Definition invalid_chars : str := [0x3c; 0x3e; 0x3a; 0x22; 0x2f; 0x5c; 0x7c; 0x3f; 0x2a].

(** [ElectionCrawler._sanitize_filename] *)
Definition _sanitize_filename (filename : str) : str :=
  let filename := fold_left (λ f char, replace_char char 0x5f f) invalid_chars filename in
  let filename :=
    if (200 <? length filename)%nat
    then let '(name, ext) := splitext filename in take 195 name ++ ext
    else filename in
  strip filename.

(** ** Python values, requests and responses *)

(** A value decoded from JSON.  A number is carried by its [str()], the only
    thing the crawler does with one. *)
#[warnings="-register-all"]
Inductive json :=
  | JNull
  | JBool (b : bool)
  | JNum (text : str)
  | JStr (s : str)
  | JArr (items : list json)
  | JObj (members : list (str * json)).

Definition type_error (msg : string) : exn := Exn TypeError (lit msg).

(** [type(v).__name__].  A number is an [int] when its text has only digits
    and a sign, and a [float] otherwise. *)
Definition type_name (v : json) : str :=
  match v with
  | JNull => lit "NoneType"
  | JBool _ => lit "bool"
  | JNum text =>
      if forallb (λ c, (0x30 <=? c) && (c <=? 0x39) || (c =? 0x2d)) text
      then lit "int" else lit "float"
  | JStr _ => lit "str"
  | JArr _ => lit "list"
  | JObj _ => lit "dict"
  end.

(** A [TypeError] whose message names the type of [v]. *)
Definition type_error_of (before : string) (v : json) (after : string) : exn :=
  Exn TypeError (lit before ++ type_name v ++ lit after).

Definition dict_lookup (key : str) (members : list (str * json)) : option json :=
  snd <$> find (λ kv, bool_decide (kv.1 = key)) members.

Definition is_str (s : str) (v : json) : bool :=
  match v with JStr t => bool_decide (t = s) | _ => false end.

(** [key in v] *)
Definition py_in (key : str) (v : json) : result bool :=
  match v with
  | JObj members => Ok (bool_decide (is_Some (dict_lookup key members)))
  | JArr items => Ok (existsb (is_str key) items)
  | JStr s => Ok (contains key s)
  | _ => Raise (type_error_of "argument of type '" v "' is not iterable")
  end.

(** [v[key]] for a string [key].  The message of the [KeyError] is
    [repr(key)], written out for a key without quotes, backslashes or
    non-printable characters, as the keys of this module are. *)
Definition py_getitem (v : json) (key : str) : result json :=
  match v with
  | JObj members =>
      match dict_lookup key members with
      | Some x => Ok x
      | None => Raise (Exn KeyError (lit "'" ++ key ++ lit "'"))
      end
  | JArr _ => Raise (type_error "list indices must be integers or slices, not str")
  | JStr _ => Raise (type_error "string indices must be integers, not 'str'")
  | _ => Raise (type_error_of "'" v "' object is not subscriptable")
  end.

(** [v.get(key)] *)
Definition py_get (v : json) (key : str) : result json :=
  match v with
  | JObj members => Ok (default JNull (dict_lookup key members))
  | _ => Raise (Exn AttributeError
                  (lit "'" ++ type_name v ++ lit "' object has no attribute 'get'"))
  end.

(** The items [for item in v] visits. *)
Definition py_iter (v : json) : result (list json) :=
  match v with
  | JArr items => Ok items
  | JObj members => Ok (map (λ kv, JStr kv.1) members)
  | JStr s => Ok (map (λ c, JStr [c]) s)
  | _ => Raise (type_error_of "'" v "' object is not iterable")
  end.

Inductive http_method := GET | POST.

(** The arguments of one [session.request] call. *)
Record request := Request {
  req_method : http_method;
  req_url : str;
  req_params : list (str * json);
  req_data : list (str * json);
  req_stream : bool;
  req_timeout : N
}.

(** A [requests.Response].  Its body is a stream: [received] holds the
    bytes the stream delivers before it ends or breaks, and [stream_error]
    the exception that breaks it, if any; where the chunk boundaries fall is
    not observed by the crawler.  The other views of the body are
    [response.json()] and, for [BeautifulSoup(response.text)], the [option]
    elements, as [(value attribute, text)], of the [select] with a given
    id. *)
Record response := Streamed {
  status_code : N;
  reason : str;
  resp_url : str;
  content_type : option str;
  content_disposition : option str;
  received : bytes;
  stream_error : option exn;
  json_body : result json;
  selects : str → option (list (option str * str))
}.

(** [response.content]: the whole body, read to the end of the stream; a
    stream that breaks raises and the bytes received so far are dropped. *)
Definition content (r : response) : result bytes :=
  match stream_error r with
  | None => Ok (received r)
  | Some e => Raise e
  end.

(** How the iteration over [response.iter_content] ends once the received
    chunks have been yielded. *)
Definition stream_end (r : response) : result unit :=
  match stream_error r with
  | None => Ok tt
  | Some e => Raise e
  end.

(** A response whose body arrives whole, or whose stream breaks before the
    first byte. *)
Definition Response (status : N) (reason_phrase url : str)
    (ctype cdisposition : option str) (body : result bytes) (decoded : result json)
    (options : str → option (list (option str * str))) : response :=
  match body with
  | Ok b => Streamed status reason_phrase url ctype cdisposition b None decoded options
  | Raise e => Streamed status reason_phrase url ctype cdisposition [] (Some e) decoded options
  end.

(** [@dataclass LocationInfo]; the fields hold whatever the caller passes. *)
Record LocationInfo := Location { code : json; name : json }.

(** ** Configuration ([config.py]) *)

Definition DEFAULT_ELECTION_ID : str := lit "0020250603".
Definition DEFAULT_ELECTION_CODE : str := lit "1".
Definition BASE_URL : str := lit "http://info.nec.go.kr".
Definition REPORT_URL : str := BASE_URL ++ lit "/electioninfo/electionInfo_report.xhtml".
Definition INIT_PAGE_URL : str :=
  BASE_URL ++ lit "/main/showDocument.xhtml?electionId=" ++ DEFAULT_ELECTION_ID
  ++ lit "&topMenuId=VC&secondMenuId=VCCP08".
Definition TOWN_CODE_URL : str :=
  BASE_URL ++ lit "/bizcommon/selectbox/selectbox_townCodeJson.json".
Definition MAX_RETRIES : nat := 3.
Definition RETRY_DELAY : Q := 2.
Definition BASE_DELAY : Q := 1.
Definition CITY_DELAY : Q := 2.
Definition CHUNK_SIZE : nat := N.to_nat 8192.
Definition TIMEOUT : N := 30.
Definition STATEMENT_ID_MAP : list (str * str) :=
  [ (lit "1", lit "VCCP08_#1"); (lit "2", lit "VCCP08_#2_1");
    (lit "3", lit "VCCP08_#3"); (lit "4", lit "VCCP08_#4");
    (lit "5", lit "VCCP08_#5"); (lit "6", lit "VCCP08_#6");
    (lit "7", lit "VCCP08_#7_1"); (lit "8", lit "VCCP08_#8");
    (lit "9", lit "VCCP08_#9"); (lit "10", lit "VCCP08_#10");
    (lit "11", lit "VCCP08_#11") ].

(** ** The crawler's state and environment *)

Inductive event :=
  | Requested (r : request)
  | Slept (seconds : Q).

(** [ElectionCrawler.stats] *)
Record stats_t := Stats {
  downloaded : N;
  errors : N;
  skipped : N;
  total_size : N
}.

(** What a run changes: the statistics, the files of the download directory
    (by name), and the sequence of requests and sleeps so far. *)
Record state := State {
  stats : stats_t;
  files : gmap str bytes;
  trace : list event
}.

(** What a run depends on and does not control, indexed where it varies by
    the number of events so far: the outcome of [session.request], the draws
    of [random.random()], the clock [int(time.time())], whether a file of the
    download directory can be opened for writing, and [str(v)] for a value
    that is not a string.  Floating-point seconds are rationals. *)
Record world := World {
  session_request : nat → request → result response;
  random_random : nat → Q;
  time_time : nat → N;
  open_wb : str → result unit;
  str_other : json → str
}.

(** [ElectionCrawler.__init__]'s arguments. *)
Record crawler := Crawler {
  election_id : str;
  election_code : str
}.

(** Code that reads and changes the state and may raise; the state reached
    before a raise is kept. *)
Definition crawl (A : Type) : Type := state → result A * state.

#[global] Instance crawl_ret : MRet crawl := λ A a st, (Ok a, st).
#[global] Instance crawl_bind : MBind crawl := λ A B f c st,
  match c st with
  | (Ok a, st') => f a st'
  | (Raise e, st') => (Raise e, st')
  end.

Definition raise {A} (e : exn) : crawl A := λ st, (Raise e, st).
Definition lift {A} (r : result A) : crawl A := λ st, (r, st).
Definition get_files : crawl (gmap str bytes) := λ st, (Ok (files st), st).
Definition set_files (fs : gmap str bytes) : crawl unit :=
  λ st, (Ok tt, State (stats st) fs (trace st)).
Definition update_stats (f : stats_t → stats_t) : crawl unit :=
  λ st, (Ok tt, State (f (stats st)) (files st) (trace st)).

(** [try: body except classes as e: handler e], for pure and for stateful
    code. *)
Definition try_except {A} (body : result A) (classes : list exn_class)
    (handler : exn → result A) : result A :=
  match body with
  | Ok a => Ok a
  | Raise e => if isinstance e classes then handler e else Raise e
  end.

Definition try_except_st {A} (body : crawl A) (classes : list exn_class)
    (handler : exn → crawl A) : crawl A :=
  λ st,
    match body st with
    | (Ok a, st') => (Ok a, st')
    | (Raise e, st') => if isinstance e classes then handler e st' else (Raise e, st')
    end.

Definition add_downloaded (file_size : N) (s : stats_t) : stats_t :=
  Stats (downloaded s + 1) (errors s) (skipped s) (total_size s + file_size).
Definition add_error (s : stats_t) : stats_t :=
  Stats (downloaded s) (errors s + 1) (skipped s) (total_size s).
Definition add_skipped (s : stats_t) : stats_t :=
  Stats (downloaded s) (errors s) (skipped s + 1) (total_size s).

(** ** The crawler ([election_crawler.py]) *)

Inductive content_kind := html | excel | unknown.

Definition html_indicators : list str :=
  [lit "<!doctype html"; lit "<html"; lit "<head>"; lit "<body>"; lit "<table"].

(** The OLE2 compound-file signature and the ZIP local-file signature. *)
Definition OLE2_MAGIC : bytes :=
  [Byte.xd0; Byte.xcf; Byte.x11; Byte.xe0; Byte.xa1; Byte.xb1; Byte.x1a; Byte.xe1].
Definition ZIP_MAGIC : bytes := [Byte.x50; Byte.x4b; Byte.x03; Byte.x04].

(** The body of the [try] block of [_detect_content_type]: [Some] kind on a
    [return], [None] when the block falls through. *)
Definition sniff_content (r : response) : result (option content_kind) :=
  body ← content r;
  content_start ← decode_utf8 Ignore (take 4096 body);
  let content_start := lower content_start in
  if existsb (λ indicator, contains indicator content_start) html_indicators
  then mret (Some html)
  else
    body ← content r;
    let content_bytes := take 8 body in
    if startswith content_bytes OLE2_MAGIC || startswith content_bytes ZIP_MAGIC
    then mret (Some excel)
    else mret None.

(** [ElectionCrawler._detect_content_type] *)
Definition _detect_content_type (r : response) : result content_kind :=
  let content_type := lower (default [] (content_type r)) in
  if contains (lit "text/html") content_type
     || contains (lit "application/html") content_type
  then mret html
  else if contains (lit "application/vnd.ms-excel") content_type
          || contains (lit "application/excel") content_type
  then mret excel
  else
    sniffed ← try_except (sniff_content r) [UnicodeDecodeError; AttributeError]
                (λ _, mret (Some excel));
    mret (default unknown sniffed).

(** [Path(name).suffix] for a file name. *)
Definition suffix (name : str) : str :=
  let i := rfind 0x2e name in
  if ((0 <? i) && (i <? Z.of_nat (length name) - 1))%Z
  then drop (Z.to_nat i) name else [].

(** [Path(name).with_suffix(ext)] for a non-empty file name. *)
Definition with_suffix (name ext : str) : str :=
  take (length name - length (suffix name)) name ++ ext.

(** [ElectionCrawler._validate_file_size], on the file's content. *)
Definition _validate_file_size (file : bytes) : bool :=
  negb (length file <? 512)%nat.

Definition alternative_extensions : list str := [lit ".html"; lit ".xls"; lit ".xlsx"].

(** The paths [_file_exists_and_valid] probes, in its order. *)
Definition probed_paths (filepath : str) : list str :=
  filepath :: map (with_suffix (with_suffix filepath [])) alternative_extensions.

(** [ElectionCrawler._file_exists_and_valid]: the first probed path that
    exists decides. *)
Definition _file_exists_and_valid (fs : gmap str bytes) (filepath : str) : bool :=
  match fs !! filepath with
  | Some file => _validate_file_size file
  | None =>
      let base_path := with_suffix filepath [] in
      (fix probe (exts : list str) : bool :=
         match exts with
         | [] => false
         | ext :: rest =>
             match fs !! with_suffix base_path ext with
             | Some file => _validate_file_size file
             | None => probe rest
             end
         end) alternative_extensions
  end.

(** [ElectionCrawler._validate_downloaded_content]; its content checks only
    log, so the outcome is decided by existence and size. *)
Definition _validate_downloaded_content (fs : gmap str bytes) (filepath : str) : bool :=
  match fs !! filepath with
  | None => false
  | Some file => negb (length file <? 512)%nat
  end.

(** The chunks [response.iter_content(chunk_size)] yields for the bytes
    [body]: the slices [requests] cuts from a body that has been read; a
    body still on the wire comes in chunks of other sizes with the same
    concatenation. *)
Fixpoint iter_slices (fuel chunk_size : nat) (body : bytes) : list bytes :=
  match fuel, body with
  | S fuel, _ :: _ => take chunk_size body :: iter_slices fuel chunk_size (drop chunk_size body)
  | _, _ => []
  end.
Definition iter_content (chunk_size : nat) (body : bytes) : list bytes :=
  iter_slices (length body) chunk_size body.

(** The write loop of [download_excel_for_location] on an opened file:
    returns the file content and [file_size]. *)
Definition write_chunks (chunks : list bytes) : bytes * N :=
  fold_left (λ '(written, file_size) chunk,
               match chunk with
               | [] => (written, file_size)
               | _ => (written ++ chunk, file_size + N.of_nat (length chunk))
               end) chunks ([], 0).

(** [HTTPError] message of [Response.raise_for_status]. *)
Definition http_error_msg (r : response) : option str :=
  let describe (kind : string) :=
    str_of_N (status_code r) ++ lit kind ++ reason r
    ++ lit " for url: " ++ resp_url r in
  if (400 <=? status_code r) && (status_code r <? 500)
  then Some (describe " Client Error: "%string)
  else if (500 <=? status_code r) && (status_code r <? 600)
  then Some (describe " Server Error: "%string)
  else None.

Definition raise_for_status (r : response) : result unit :=
  match http_error_msg r with
  | Some msg => Raise (Exn HTTPError msg)
  | None => Ok tt
  end.

Section Crawler.

Variable w : world.
Variable self : crawler.

(** [str(v)], as f-strings apply it. *)
Definition py_str (v : json) : str :=
  match v with
  | JStr s => s
  | _ => str_other w v
  end.

(** [self.session.request(...)] *)
Definition session_call (req : request) : crawl response :=
  λ st, (session_request w (length (trace st)) req,
         State (stats st) (files st) (trace st ++ [Requested req])).

(** [time.sleep(seconds)] *)
Definition sleep (seconds : Q) : crawl unit :=
  λ st, (Ok tt, State (stats st) (files st) (trace st ++ [Slept seconds])).

(** [random.uniform(a, b)] *)
Definition uniform (a b : Q) : crawl Q :=
  λ st, (Ok (a + (b - a) * random_random w (length (trace st)))%Q, st).

(** [int(time.time())] *)
Definition unix_time : crawl N :=
  λ st, (Ok (time_time w (length (trace st))), st).

(** One iteration of the retry loop: [Some response] on [return], [None]
    when the loop goes on. *)
Definition attempt_request (max_retries attempt : nat) (req : request)
    : crawl (option response) :=
  try_except_st
    ((if (0 <? attempt)%nat then
        jitter ← uniform (1 # 2) (3 # 2);
        sleep (RETRY_DELAY * inject_Z (2 ^ Z.of_nat attempt) * jitter)
      else mret tt);;
     response ← session_call req;
     lift (raise_for_status response);;
     mret (Some response))
    [RequestException]
    (λ e,
       if (attempt =? max_retries - 1)%nat
       then raise (Exn ElectionCrawlerError
                     (lit "Failed to make request after " ++ str_of_nat max_retries
                      ++ lit " attempts: " ++ exn_str e))
       else mret None).

Fixpoint retry_loop (max_retries : nat) (attempts : list nat) (req : request)
    : crawl response :=
  match attempts with
  | [] => raise (Exn ElectionCrawlerError (lit "Unexpected error in retry logic"))
  | attempt :: rest =>
      r ← attempt_request max_retries attempt req;
      match r with
      | Some response => mret response
      | None => retry_loop max_retries rest req
      end
  end.

(** [ElectionCrawler._make_request_with_retry]; [req] carries the keyword
    arguments, with the default timeout set. *)
Definition _make_request_with_retry (req : request) : crawl response :=
  retry_loop MAX_RETRIES (seq 0 MAX_RETRIES) req.

Definition location_options (r : response) (id : str) : list LocationInfo :=
  match selects r id with
  | None => []
  | Some options =>
      omap (λ '(value, text),
              match value with
              | Some (c :: v) =>
                  if bool_decide (c :: v ≠ lit "-1")
                  then Some (Location (JStr (c :: v)) (JStr (strip text)))
                  else None
              | _ => None
              end) options
  end.

(** [ElectionCrawler.get_city_town_codes] *)
Definition get_city_town_codes : crawl (list LocationInfo * list LocationInfo) :=
  try_except_st
    (response ← _make_request_with_retry (Request GET INIT_PAGE_URL [] [] false TIMEOUT);
     mret (location_options response (lit "cityCode"),
           location_options response (lit "townCode")))
    [Exception]
    (λ e, raise (Exn ElectionCrawlerError
                   (lit "Failed to fetch city/town codes: " ++ exn_str e))).

(** The loop [for item in town_data] of [get_town_codes_for_city]. *)
Fixpoint town_codes_of (items : list json) : result (list LocationInfo) :=
  match items with
  | [] => mret []
  | item :: rest =>
      c ← py_get item (lit "CODE");
      if is_str (lit "-1") c then town_codes_of rest
      else
        c ← py_getitem item (lit "CODE");
        n ← py_getitem item (lit "NAME");
        town_codes ← town_codes_of rest;
        mret (Location c n :: town_codes)
  end.

(** The selection of [town_data] from the decoded body. *)
Definition town_data_of (response_data : json) : result json :=
  wrapped ← py_in (lit "jsonResult") response_data;
  with_body ←
    (if wrapped : bool then
       json_result ← py_getitem response_data (lit "jsonResult");
       py_in (lit "body") json_result
     else mret false);
  if with_body : bool then
    json_result ← py_getitem response_data (lit "jsonResult");
    py_getitem json_result (lit "body")
  else mret response_data.

(** [ElectionCrawler.get_town_codes_for_city] *)
Definition get_town_codes_for_city (city_code : json) : crawl (list LocationInfo) :=
  let params := [(lit "electionId", JStr (election_id self)); (lit "cityCode", city_code)] in
  try_except_st
    (response ← _make_request_with_retry (Request GET TOWN_CODE_URL params [] false TIMEOUT);
     lift (response_data ← json_body response;
           town_data ← town_data_of response_data;
           items ← py_iter town_data;
           town_codes_of items))
    [RequestException; ValueError]
    (λ _, mret []).

(** [ElectionCrawler._generate_title]; the opening literal is
    "[제21대 대통령선거] [". *)
Definition _generate_title (city_name town_name : json) : str :=
  [0x5b; 0xc81c] ++ lit "21" ++ [0xb300; 0x20; 0xb300; 0xd1b5; 0xb839; 0xc120; 0xac70]
  ++ lit "] [" ++ py_str city_name ++ lit "] [" ++ py_str town_name ++ lit "]".

(** The base name [_get_filename_from_response] reads from the
    [Content-Disposition] header; [None] when there is no usable one. *)
Definition header_base_filename (r : response) : option str :=
  match content_disposition r with
  | Some cd =>
      if contains (lit "filename=") cd then
        let filename := strip_chars [0x22; 0x27] (split_second (lit "filename=") cd) in
        let filename := unquote_plus filename in
        let filename := _sanitize_filename filename in
        Some (splitext filename).1
      else None
  | None => None
  end.

(** [ElectionCrawler._get_filename_from_response] *)
Definition _get_filename_from_response (r : response) (city_code town_code : json)
    : crawl str :=
  kind ← lift (_detect_content_type r);
  base_filename ←
    match header_base_filename r with
    | Some (c :: base) => mret (c :: base)
    | _ =>
        timestamp ← unix_time;
        mret (lit "election_report_" ++ py_str city_code ++ lit "_"
              ++ py_str town_code ++ lit "_" ++ str_of_N timestamp)
    end;
  match kind with
  | html => mret (base_filename ++ lit ".html")
  | excel => mret (base_filename ++ lit ".xls")
  | unknown => mret (base_filename ++ lit ".html")
  end.

Definition report_payload (city_code city_name town_code town_name : json)
    : list (str * json) :=
  let statement_id :=
    default (lit "VCCP08_#1")
      (snd <$> find (λ kv, bool_decide (kv.1 = election_code self)) STATEMENT_ID_MAP) in
  [ (lit "electionId", JStr (election_id self));
    (lit "requestURI",
      JStr (lit "/electioninfo/" ++ election_id self ++ lit "/vc/vccp08.jsp"));
    (lit "topMenuId", JStr (lit "VC"));
    (lit "secondMenuId", JStr (lit "VCCP08"));
    (lit "menuId", JStr (lit "VCCP08"));
    (lit "statementId", JStr statement_id);
    (lit "electionCode", JStr (election_code self));
    (lit "cityCode", city_code);
    (lit "townCode", town_code);
    (lit "reportType", JStr (lit "XLS"));
    (lit "fTitle", JStr (_generate_title city_name town_name)) ].

(** The [try] block of [download_excel_for_location]. *)
Definition download_body (city_code city_name town_code town_name : json) : crawl bool :=
  let payload := report_payload city_code city_name town_code town_name in
  response ← _make_request_with_retry (Request POST REPORT_URL [] payload true TIMEOUT);
  filename ← _get_filename_from_response response city_code town_code;
  fs ← get_files;
  if _file_exists_and_valid fs filename then
    update_stats add_skipped;; mret true
  else
    lift (open_wb w filename);;
    set_files (<[filename := []]> fs);;
    let '(written, file_size) :=
      write_chunks (iter_content CHUNK_SIZE (received response)) in
    set_files (<[filename := written]> fs);;
    lift (stream_end response);;
    fs ← get_files;
    if _validate_downloaded_content fs filename then
      update_stats (add_downloaded file_size);; mret true
    else
      update_stats add_error;; mret false.

(** [ElectionCrawler.download_excel_for_location] *)
Definition download_excel_for_location (city_code city_name town_code town_name : json)
    : crawl bool :=
  try_except_st (download_body city_code city_name town_code town_name)
    [Exception]
    (λ _, update_stats add_error;; mret false).

(** The inner loop of [_crawl_sequential]. *)
Fixpoint crawl_towns (city : LocationInfo) (town_codes : list LocationInfo) : crawl unit :=
  match town_codes with
  | [] => mret tt
  | town :: rest =>
      download_excel_for_location (code city) (name city) (code town) (name town);;
      jitter ← uniform (- (1 # 5)) (1 # 5);
      sleep (BASE_DELAY + jitter);;
      crawl_towns city rest
  end.

(** The outer loop of [_crawl_sequential], at city number [i] of [n]. *)
Fixpoint crawl_cities (i n : nat) (city_codes : list LocationInfo) : crawl unit :=
  match city_codes with
  | [] => mret tt
  | city :: rest =>
      town_codes ← get_town_codes_for_city (code city);
      match town_codes with
      | [] => mret tt
      | _ =>
          crawl_towns city town_codes;;
          if (i <? n)%nat then sleep CITY_DELAY else mret tt
      end;;
      crawl_cities (S i) n rest
  end.

(** [ElectionCrawler._crawl_sequential] *)
Definition _crawl_sequential (city_codes : list LocationInfo) : crawl unit :=
  crawl_cities 1 (length city_codes) city_codes.

(** The task list [_crawl_concurrent] prepares before it starts its
    workers. *)
Fixpoint download_tasks (city_codes : list LocationInfo)
    : crawl (list (json * json * json * json)) :=
  match city_codes with
  | [] => mret []
  | city :: rest =>
      town_codes ← get_town_codes_for_city (code city);
      tasks ← download_tasks rest;
      mret (map (λ town, (code city, name city, code town, name town)) town_codes ++ tasks)
  end.

(** [ElectionCrawler.crawl_all_locations] with [use_concurrent=False]. *)
Definition crawl_all_locations : crawl unit :=
  try_except_st
    ('(city_codes, _) ← get_city_town_codes;
     _crawl_sequential city_codes)
    [Exception]
    (λ e, raise e).

End Crawler.

(** ** Notions used by the retry property *)

(** An outcome of [session.request] that makes the attempt fail: a
    [RequestException], or a response whose status [raise_for_status]
    rejects. *)
Definition request_fails (outcome : result response) : Prop :=
  match outcome with
  | Raise e => isinstance e [RequestException] = true
  | Ok r => is_Some (http_error_msg r)
  end.

(** The exception a failed attempt handles. *)
Definition failure_of (outcome : result response) : exn :=
  match outcome with
  | Raise e => e
  | Ok r => Exn HTTPError (default [] (http_error_msg r))
  end.

(** [RETRY_DELAY * (2 ** attempt) * random.uniform(0.5, 1.5)], with the draw
    made after [tick] events. *)
Definition retry_delay (w : world) (attempt tick : nat) : Q :=
  RETRY_DELAY * inject_Z (2 ^ Z.of_nat attempt)
  * ((1 # 2) + ((3 # 2) - (1 # 2)) * random_random w tick).

(** A computation that neither touches the statistics nor the files. *)
Definition frames {A} (c : crawl A) : Prop :=
  ∀ st, stats (c st).2 = stats st ∧ files (c st).2 = files st.

(** The outcome of one download, by the stage that decides it. *)
Definition download_outcome (w : world) (st1 : state) (r : response) (filename : result str)
    : bool * state :=
  let failed fs := (false, State (add_error (stats st1)) fs (trace st1)) in
  match filename with
  | Raise _ => failed (files st1)
  | Ok filename =>
      if _file_exists_and_valid (files st1) filename
      then (true, State (add_skipped (stats st1)) (files st1) (trace st1))
      else
        match open_wb w filename with
        | Raise _ => failed (files st1)
        | Ok _ =>
            let fs := <[filename := received r]> (files st1) in
            match stream_error r with
            | Some _ => failed fs
            | None =>
                if (length (received r) <? 512)%nat
                then failed fs
                else (true,
                      State (add_downloaded (N.of_nat (length (received r))) (stats st1))
                        fs (trace st1))
            end
        end
  end.

(** ** Notions used by the skip property *)

(** The first path of a list that exists, with the file it holds. *)
Fixpoint first_existing (fs : gmap str bytes) (paths : list str) : option (str * bytes) :=
  match paths with
  | [] => None
  | p :: rest =>
      match fs !! p with
      | Some file => Some (p, file)
      | None => first_existing fs rest
      end
  end.

(** The request [download_excel_for_location] posts. *)
Definition report_request (w : world) (self : crawler)
    (city_code city_name town_code town_name : json) : request :=
  Request POST REPORT_URL []
    (report_payload w self city_code city_name town_code town_name) true TIMEOUT.

(** The skip rule as C3 words it: whenever the target path, or a path with
    the same base name and one of the alternative extensions, holds a file
    of at least 512 bytes, the download is recorded as skipped, succeeds and
    leaves the files as they were. *)
Definition skips_whenever_valid (w : world) (self : crawler)
    (city_code city_name town_code town_name : json) (st : state) : Prop :=
  ∀ r st1 filename,
    _make_request_with_retry w
      (report_request w self city_code city_name town_code town_name) st = (Ok r, st1) →
    (_get_filename_from_response w r city_code town_code st1).1 = Ok filename →
    (∃ p file,
        p ∈ filename :: map (λ ext, (splitext filename).1 ++ ext) alternative_extensions ∧
        files st !! p = Some file ∧ (512 ≤ length file)%nat) →
    download_excel_for_location w self city_code city_name town_code town_name st
    = (Ok true, State (add_skipped (stats st)) (files st) (trace st1)).

(** ** Notions used by the directory properties *)

(** A well-formed sub-region entry [{"CODE": c, "NAME": n}]. *)
Definition town_entry (cn : str * str) : json :=
  JObj [(lit "CODE", JStr cn.1); (lit "NAME", JStr cn.2)].

(** The sub-regions a list of well-formed entries stands for. *)
Definition towns_of_entries (entries : list (str * str)) : list LocationInfo :=
  map (λ cn, Location (JStr cn.1) (JStr cn.2))
    (filter (λ cn, cn.1 ≠ lit "-1") entries).

(** The request [get_town_codes_for_city] sends. *)
Definition town_request (self : crawler) (city_code : json) : request :=
  Request GET TOWN_CODE_URL
    [(lit "electionId", JStr (election_id self)); (lit "cityCode", city_code)]
    [] false TIMEOUT.

(** A transport that refuses every connection, and one that serves the entry
    page with the single region 11 and refuses every later request. *)
Definition refused : result response := Raise (Exn ConnectionError (lit "refused")).
Definition entry_page : response :=
  Response 200 (lit "OK") INIT_PAGE_URL (Some (lit "text/html")) None (Ok [])
    (Raise (Exn JSONDecodeError (lit "Expecting value")))
    (λ id, if bool_decide (id = lit "cityCode")
           then Some [(Some (lit "-1"), lit "select"); (Some (lit "11"), lit " Seoul ")]
           else None).
Definition offline : world :=
  World (λ _ _, refused) (λ _, 0%Q) (λ _, 0) (λ _, Ok tt) (λ _, []).
Definition offline_after_entry_page : world :=
  World (λ k _, if (k =? 0)%nat then Ok entry_page else refused)
    (λ _, 0%Q) (λ _, 0) (λ _, Ok tt) (λ _, []).
Definition initial_state : state := State (Stats 0 0 0 0) ∅ [].
Definition default_crawler : crawler := Crawler DEFAULT_ELECTION_ID DEFAULT_ELECTION_CODE.

(** ** Notions used by the file-name property *)

(** What sanitizing does to one character. *)
Definition sanitize_char (c : N) : N :=
  if existsb (N.eqb c) invalid_chars then 0x5f else c.

Definition extension_of (kind : content_kind) : str :=
  match kind with
  | excel => lit ".xls"
  | html | unknown => lit ".html"
  end.

(** The name read from a [Content-Disposition] header that has a
    [filename=] part: unquoted, URL-decoded and sanitized. *)
Definition header_filename (cd : str) : str :=
  _sanitize_filename
    (unquote_plus (strip_chars [0x22; 0x27] (split_second (lit "filename=") cd))).

(** [election_report_{city_code}_{town_code}_{timestamp}], with the clock
    read after [tick] events. *)
Definition fallback_name (w : world) (city_code town_code : json) (tick : nat) : str :=
  lit "election_report_" ++ py_str w city_code ++ lit "_" ++ py_str w town_code
  ++ lit "_" ++ str_of_N (time_time w tick).

(** The file name as C7 words it: the sanitized header name is itself the
    base that receives the extension. *)
Definition stated_filename (r : response) (fallback : str) (kind : content_kind) : str :=
  match content_disposition r with
  | Some cd =>
      if contains (lit "filename=") cd then header_filename cd else fallback
  | None => fallback
  end ++ extension_of kind.

(** ** Parsing one document ([html_to_csv_parser.py]) *)

(** A parsed HTML document, as [parse_html_file] queries it:
    [soup.find('table', {'id': 'table01'})] and
    [soup.find('table', class_='table01')]. *)
Record document := Document {
  table_by_id : option table;
  table_by_class : option table
}.

(** The part of [ElectionHTMLParser.parse_html_file] that follows the
    reading of the file. *)
Definition parse_document (doc : document) : result (list (gmap str str)) :=
  match from_option Some (table_by_class doc) (table_by_id doc) with
  | None => mret []
  | Some table =>
      headers ← _extract_headers table;
      mret (_extract_data_rows table headers)
  end.

(** ** Notions used by the table properties *)

(** The characters of a text that are not whitespace, in order. *)
Definition content_chars (s : str) : str := filter (λ c, isspace c = false) s.

(** A first-row cell whose own label becomes a header: it spans both rows,
    or its label is not the composite one. *)
Definition keeps_label (c : cell) : bool :=
  match rowspan c with
  | Ok rows => (rows =? 2)%Z || negb (bool_decide (cell_text c = candidate_votes_label))
  | Raise _ => false
  end.

(** Both span attributes of a cell are integer literals. *)
Definition spans_parse (c : cell) : Prop :=
  (∃ k, colspan c = Ok k) ∧ (∃ rows, rowspan c = Ok rows).

(** ** Writing CSV files and parsing a directory ([html_to_csv_parser.py]) *)

(** [a <= b] on Python strings: lexicographic by code point. *)
Fixpoint str_leb (a b : str) : bool :=
  match a, b with
  | [], _ => true
  | _ :: _, [] => false
  | x :: a', y :: b' => if x <? y then true else if y <? x then false else str_leb a' b'
  end.
Definition str_le (a b : str) : Prop := str_leb a b = true.

#[global] Instance str_le_dec : RelDecision str_le.
Proof. intros a b. unfold str_le. apply _. Defined.

(** [sorted(list(all_headers))], where [all_headers] is the set of the keys
    of all rows. *)
Definition csv_fieldnames (data_rows : list (gmap str str)) : list str :=
  merge_sort str_le (elements (⋃ (dom <$> data_rows) : gset str)).

(** ** Text written to the CSV file *)














(** A CSV file as the writer is given it: the rows written, the header row
    first.  A file that was opened and received no row is empty. *)
Abbreviation csv_file := (list (list str)).

(** What parsing a directory depends on: reading and parsing a file of the
    input directory ([open], [read], [BeautifulSoup]) and opening a file of
    the output directory for writing.  Once a file is open, the operating
    system is taken to accept what is written. *)
Record parser_env := ParserEnv {
  read_document : str → result document;
  open_csv : str → result unit
}.

(** [Path(name).stem] *)
Definition stem (name : str) : str := take (length name - length (suffix name)) name.

Section Parser.

Variable env : parser_env.






End Parser.



(** [s.split(sep)] for a one-character [sep]. *)
Fixpoint split_char (sep : N) (s : str) : list str :=
  match s with
  | [] => [[]]
  | c :: r =>
      if c =? sep then [] :: split_char sep r
      else match split_char sep r with
           | part :: parts => (c :: part) :: parts
           | [] => [[c]]
           end
  end.

(** The [city_map] of [_extract_location_info]. *)
Definition city_map : list (str * str) :=
  [ (lit "1100", [0xc11c; 0xc6b8; 0xd2b9; 0xbcc4; 0xc2dc]);
    (lit "2600", [0xbd80; 0xc0b0; 0xad11; 0xc5ed; 0xc2dc]);
    (lit "2700", [0xb300; 0xad6c; 0xad11; 0xc5ed; 0xc2dc]) ].

(** [ElectionHTMLParser._extract_location_info], on the name of the CSV
    file; the data frame argument is not used by the source. *)
Definition _extract_location_info (csv_file_name : str) : gmap str str :=
  let filename := stem csv_file_name in
  let parts := split_char 0x5f filename in
  if (4 <=? length parts)%nat then
    let city_code := default [] (parts !! 2%nat) in
    let district_code := default [] (parts !! 3%nat) in
    <[lit "city" := default city_code
                      (snd <$> find (λ kv, bool_decide (kv.1 = city_code)) city_map)]>
      (<[lit "district" := district_code]> ∅)
  else <[lit "city" := []]> (<[lit "district" := []]> ∅).

(** ** Notions used by the further crawler properties *)

(** Every file of at least 512 bytes is still there, unchanged. *)
Definition files_kept (before after : gmap str bytes) : Prop :=
  ∀ path file,
    before !! path = Some file → (512 ≤ length file)%nat → after !! path = Some file.

(** A computation that keeps the valid files and removes no file, whether
    it returns or raises. *)
Definition keeps_files {A} (c : crawl A) : Prop :=
  ∀ st,
    files_kept (files st) (files (c st).2) ∧
    ∀ path, is_Some (files st !! path) → is_Some (files (c st).2 !! path).

(** The number of tasks the statistics account for. *)
Definition tasks_counted (s : stats_t) : N := downloaded s + skipped s + errors s.

(** A region read from the entry page: a non-empty code other than ["-1"]
    and a name without surrounding whitespace. *)
Definition listed_location (l : LocationInfo) : Prop :=
  ∃ c n, l = Location (JStr c) (JStr n) ∧ c ≠ [] ∧ c ≠ lit "-1" ∧ strip n = n.

(** The three courses a request with retries can take: the events it adds
    to a trace of length [n]. *)
Definition retry_courses (w : world) (req : request) (n : nat) : list (list event) :=
  [ [Requested req];
    [Requested req; Slept (retry_delay w 1 (n + 1)); Requested req];
    [Requested req; Slept (retry_delay w 1 (n + 1)); Requested req;
     Slept (retry_delay w 2 (n + 3)); Requested req] ].

(** What one sub-region adds to the trace of the sequential crawl when it
    is paced: the events of its request, then one pause of 0.8 to 1.2
    seconds. *)
Definition paced_download (w : world) (self : crawler) (city town : LocationInfo)
    (block : list event) : Prop :=
  ∃ n course d,
    course ∈ retry_courses w
               (report_request w self (code city) (name city) (code town) (name town)) n ∧
    block = course ++ [Slept d] ∧ (4 # 5 <= d)%Q ∧ (d <= 6 # 5)%Q.

(** * Properties *)

(** ** Text cleaning *)

Section CleanText.

Lemma lstrip_app_nonspace s c :
  isspace c = false → lstrip (s ++ [c]) = lstrip s ++ [c].
Proof.
  intros Hc. induction s as [|d s IH]; simpl.
  - by rewrite Hc.
  - destruct (isspace d); [exact IH | done].
Qed.

Lemma lstrip_head s c : head (lstrip s) = Some c → isspace c = false.
Proof.
  induction s as [|d s IH]; simpl; [done|].
  destruct (isspace d) eqn:Hd; [exact IH|].
  simpl. intros [= <-]. exact Hd.
Qed.

Lemma lstrip_id s : (∀ c, head s = Some c → isspace c = false) → lstrip s = s.
Proof.
  destruct s as [|d s]; simpl; [done|].
  intros H. by rewrite (H d eq_refl).
Qed.

Lemma rstrip_last s c : last (rstrip s) = Some c → isspace c = false.
Proof.
  unfold rstrip. rewrite last_reverse. apply lstrip_head.
Qed.

Lemma rstrip_id s : (∀ c, last s = Some c → isspace c = false) → rstrip s = s.
Proof.
  intros H. unfold rstrip. rewrite lstrip_id, reverse_involutive; [done|].
  intros c Hc. apply H. by rewrite <- head_reverse.
Qed.

Lemma rstrip_cons_nonspace c s :
  isspace c = false → rstrip (c :: s) = c :: rstrip s.
Proof.
  intros Hc. unfold rstrip.
  by rewrite reverse_cons, lstrip_app_nonspace, reverse_snoc.
Qed.

Lemma strip_head s c : head (strip s) = Some c → isspace c = false.
Proof.
  unfold strip. destruct (lstrip s) as [|d r] eqn:E; [done|].
  assert (Hd : isspace d = false) by (apply (lstrip_head s); by rewrite E).
  rewrite rstrip_cons_nonspace by done. simpl. by intros [= <-].
Qed.

Lemma strip_last s c : last (strip s) = Some c → isspace c = false.
Proof. apply rstrip_last. Qed.

Lemma strip_id s :
  (∀ c, head s = Some c → isspace c = false) →
  (∀ c, last s = Some c → isspace c = false) → strip s = s.
Proof.
  intros Hh Hl. unfold strip. rewrite lstrip_id by done. by apply rstrip_id.
Qed.

Lemma sub_ws_single_spaced s : ∀ b, single_spaced b (sub_ws_from b s) = true.
Proof.
  induction s as [|c s IH]; intros b; simpl; [done|].
  destruct (isspace c) eqn:Hc.
  - destruct b; [apply IH|]. simpl. by rewrite IH.
  - simpl. rewrite Hc. apply IH.
Qed.

Lemma sub_ws_fixed s : ∀ b, single_spaced b s = true → sub_ws_from b s = s.
Proof.
  induction s as [|c s IH]; intros b; simpl; [done|].
  destruct (isspace c) eqn:Hc.
  - destruct b; simpl; [done|].
    intros [Hc32 Hs]%andb_prop. apply N.eqb_eq in Hc32 as ->.
    by rewrite IH.
  - intros Hs. by rewrite IH.
Qed.

Lemma sub_ws_head s c :
  (∀ d, head s = Some d → isspace d = false) →
  head (sub_ws_from false s) = Some c → isspace c = false.
Proof.
  destruct s as [|d s]; simpl; [done|].
  intros H. rewrite (H d eq_refl). simpl. intros [= <-]. by apply H.
Qed.

Lemma sub_ws_app_nonspace s c :
  isspace c = false → ∀ b, sub_ws_from b (s ++ [c]) = sub_ws_from b s ++ [c].
Proof.
  intros Hc. induction s as [|d s IH]; intros b; simpl.
  - by rewrite Hc.
  - destruct (isspace d); [destruct b|]; by rewrite IH.
Qed.

Lemma sub_ws_last s c :
  (∀ d, last s = Some d → isspace d = false) →
  last (sub_ws_from false s) = Some c → isspace c = false.
Proof.
  destruct (decide (s = [])) as [->|Hne]; [done|].
  destruct (exists_last Hne) as (s' & d & ->).
  intros H.
  assert (Hd : isspace d = false) by (apply H; by rewrite last_snoc).
  rewrite sub_ws_app_nonspace, last_snoc by done. by intros [= <-].
Qed.

Lemma single_spaced_replace old s :
  isspace old = true → old ≠ 0x20 →
  ∀ b, single_spaced b s = true → replace_char old 0x20 s = s.
Proof.
  intros Hold Hne. induction s as [|c s IH]; intros b; simpl; [done|].
  destruct (isspace c) eqn:Hc.
  - intros [[_ Hc32]%andb_prop Hs]%andb_prop.
    apply N.eqb_eq in Hc32 as ->.
    destruct (N.eqb_spec 0x20 old) as [Heq|_]; [by subst|].
    f_equal. by apply (IH true).
  - intros Hs. destruct (N.eqb_spec c old) as [->|_]; [congruence|].
    f_equal. by apply (IH false).
Qed.

Lemma single_spaced_no_char s c :
  isspace c = true → c ≠ 0x20 → ∀ b, single_spaced b s = true → c ∉ s.
Proof.
  intros Hc Hne. induction s as [|d s IH]; intros b; simpl.
  - intros _. apply not_elem_of_nil.
  - intros Hs. apply not_elem_of_cons.
    destruct (isspace d) eqn:Hd.
    + apply andb_prop in Hs as [[_ Hd32]%andb_prop Hs].
      apply N.eqb_eq in Hd32 as ->. split; [done | by apply (IH true)].
    + split; [congruence | by apply (IH false)].
Qed.

Lemma single_spaced_adjacent s :
  ∀ b i c d, single_spaced b s = true →
    s !! i = Some c → s !! S i = Some d →
    isspace c = true → isspace d = false.
Proof.
  induction s as [|x s IH]; intros b i c d; simpl; [done|].
  intros Hs Hi HSi Hc. destruct i as [|i]; simpl in *.
  - injection Hi as ->. rewrite Hc in Hs.
    apply andb_prop in Hs as [_ Hs].
    destruct s as [|y s]; [done|]. simpl in *. injection HSi as ->.
    destruct (isspace d); [done | done].
  - destruct (isspace x).
    + apply andb_prop in Hs as [_ Hs]. by apply (IH true i c d).
    + by apply (IH false i c d).
Qed.

Lemma collapsed_single_spaced t : single_spaced false (collapsed t) = true.
Proof. apply sub_ws_single_spaced. Qed.

Lemma clean_text_collapsed t : _clean_text (Some t) = collapsed t.
Proof.
  destruct t as [|c t]; [done|].
  change (_clean_text (Some (c :: t)))
    with (replace_char 0x0d 0x20 (replace_char 0x0a 0x20 (collapsed (c :: t)))).
  rewrite (single_spaced_replace 0x0a _ eq_refl) with (b := false);
    [|done|apply collapsed_single_spaced].
  apply (single_spaced_replace 0x0d _ eq_refl) with (b := false);
    [done|apply collapsed_single_spaced].
Qed.

Lemma collapsed_head t c : head (collapsed t) = Some c → isspace c = false.
Proof. apply sub_ws_head, strip_head. Qed.

Lemma collapsed_last t c : last (collapsed t) = Some c → isspace c = false.
Proof. apply sub_ws_last, strip_last. Qed.

Lemma collapsed_idem t : collapsed (collapsed t) = collapsed t.
Proof.
  unfold collapsed at 1.
  rewrite strip_id; [|apply collapsed_head|apply collapsed_last].
  apply sub_ws_fixed, collapsed_single_spaced.
Qed.

End CleanText.

(** C9. [_clean_text] is idempotent, and its result has no line feed or
    carriage return, no two adjacent whitespace characters and no leading or
    trailing whitespace; an empty or falsy argument gives the empty string. *)
Theorem clean_text_idempotent_normal :
  (∀ s : str, _clean_text (Some (_clean_text (Some s))) = _clean_text (Some s)) ∧
  (∀ s : str,
      let t := _clean_text (Some s) in
      (0x0a ∉ t) ∧ (0x0d ∉ t) ∧
      (∀ i c d, t !! i = Some c → t !! S i = Some d →
                ¬ (isspace c = true ∧ isspace d = true)) ∧
      (∀ c, head t = Some c → isspace c = false) ∧
      (∀ c, last t = Some c → isspace c = false)) ∧
  _clean_text (Some []) = [] ∧ _clean_text None = [].
Proof.
  split; [|split; [|done]].
  - intros s. rewrite !clean_text_collapsed. apply collapsed_idem.
  - intros s t. subst t. rewrite clean_text_collapsed.
    pose proof (collapsed_single_spaced s) as Hs.
    repeat split.
    + by apply (single_spaced_no_char _ 0x0a eq_refl) with (b := false).
    + by apply (single_spaced_no_char _ 0x0d eq_refl) with (b := false).
    + intros i c d Hi HSi [Hc Hd].
      pose proof (single_spaced_adjacent _ _ _ _ _ Hs Hi HSi Hc). congruence.
    + apply collapsed_head.
    + apply collapsed_last.
Qed.

Lemma clean_text_idempotent_normal_witness :
  let s := [0x20; 0x09] ++ lit "a" ++ [0x0d; 0x0a; 0x3000] ++ lit "b" ++ [0x0a] in
  _clean_text (Some s) = lit "a b" ∧
  _clean_text (Some (_clean_text (Some s))) = lit "a b" ∧
  ¬ (isspace 0x61 = true ∧ isspace 0x20 = true) ∧
  isspace 0x61 = false ∧ isspace 0x62 = false.
Proof.
  intros s.
  destruct clean_text_idempotent_normal as (Hidem & Hnormal & _).
  destruct (Hnormal s) as (_ & _ & Hadjacent & Hhead & Hlast).
  split; [reflexivity|]. split; [rewrite Hidem; reflexivity|].
  split; [|split].
  - apply (Hadjacent 0%nat); reflexivity.
  - apply Hhead. reflexivity.
  - apply Hlast. reflexivity.
Defined.

(** ** Header reconstruction *)

Section Headers.

Lemma slice_to_nat {A} (k : nat) (s : list A) : slice_to (Z.of_nat k) s = take k s.
Proof.
  unfold slice_to. destruct (Z.ltb_spec (Z.of_nat k) 0); [lia|].
  by rewrite Nat2Z.id.
Qed.

Lemma slice_from_nat {A} (k : nat) (s : list A) : slice_from (Z.of_nat k) s = drop k s.
Proof.
  unfold slice_from. destruct (Z.ltb_spec (Z.of_nat k) 0); [lia|].
  by rewrite Nat2Z.id.
Qed.

Lemma header_step_spans c v headers second_row :
  spans c v →
  ∃ hs rest,
    header_step (headers, second_row) c = Ok (headers ++ hs, rest) ∧
    ∀ tail, reconstructed (v :: tail) (map cell_text second_row)
            = hs ++ reconstructed tail (map cell_text rest).
Proof.
  destruct v as [[text k] rows]. intros (Ht & Hk & Hr).
  unfold header_step. rewrite Hk, Hr. simpl. rewrite Ht.
  destruct (rows =? 2)%Z.
  - exists [text], second_row. by split.
  - destruct (bool_decide (text = candidate_votes_label)).
    + exists (map cell_text (take k second_row)), (drop k second_row).
      rewrite slice_to_nat, slice_from_nat. split; [done|].
      intros tail. by rewrite firstn_map, skipn_map.
    + exists [text], second_row. by split.
Qed.

Lemma header_loop_spans first_row vs :
  Forall2 spans first_row vs →
  ∀ headers second_row,
  ∃ hs rest,
    header_loop (headers, second_row) first_row = Ok (headers ++ hs, rest) ∧
    reconstructed vs (map cell_text second_row) = hs ++ map cell_text rest.
Proof.
  induction 1 as [|c v first_row vs Hc _ IH]; intros headers second_row.
  - exists [], second_row. simpl. by rewrite app_nil_r.
  - destruct (header_step_spans c v headers second_row Hc) as (hs & rest & Hstep & Hrec).
    destruct (IH (headers ++ hs) rest) as (hs' & rest' & Hloop & Hrec').
    exists (hs ++ hs'), rest'. split.
    + cbn [header_loop]. rewrite Hstep. cbn. rewrite Hloop. by rewrite app_assoc.
    + by rewrite Hrec, Hrec', app_assoc.
Qed.

Lemma two_row_headers_spans first_row second_row vs :
  Forall2 spans first_row vs →
  two_row_headers first_row second_row
  = Ok (reconstructed vs (map cell_text second_row)).
Proof.
  intros H. unfold two_row_headers.
  destruct (header_loop_spans _ _ H [] second_row) as (hs & rest & -> & ->).
  done.
Qed.

End Headers.

(** C2. For a table with at least two header rows, [_extract_headers] returns
    the reconstruction of the two-row rule: a first-row cell of rowspan 2
    once, the composite label's [colspan] next second-row cells, any other
    label as it is, then the unconsumed second-row cells.  In particular
    [A(rowspan=2), B(colspan=2, rowspan=1, composite label)] over [C, D]
    gives [A, C, D]. *)
Theorem extract_headers_reconstructs :
  (∀ t first_row second_row more vs,
      header_rows t = first_row :: second_row :: more →
      Forall2 spans first_row vs →
      _extract_headers t = Ok (reconstructed vs (map cell_text second_row))) ∧
  (∀ a k c d t,
      header_rows t
      = [[Cell a (Ok k) (Ok 2%Z); Cell candidate_votes_label (Ok 2%Z) (Ok 1%Z)]; [c; d]] →
      _extract_headers t = Ok [_clean_text (Some a); cell_text c; cell_text d]).
Proof.
  split.
  - intros t first_row second_row more vs Hrows Hspans.
    unfold _extract_headers. rewrite Hrows.
    by apply two_row_headers_spans.
  - intros a k c d t Hrows. unfold _extract_headers. rewrite Hrows. done.
Qed.

Lemma extract_headers_reconstructs_witness :
  let A := Cell (lit " region ") (Ok 1%Z) (Ok 2%Z) in
  let B := Cell candidate_votes_label (Ok 2%Z) (Ok 1%Z) in
  let E := Cell (lit "total") (Ok 1%Z) (Ok 1%Z) in
  let C := Cell (lit "kim") (Ok 1%Z) (Ok 1%Z) in
  let D := Cell (lit "lee") (Ok 1%Z) (Ok 1%Z) in
  let F := Cell (lit "sum") (Ok 1%Z) (Ok 1%Z) in
  _extract_headers (Table (Some [[A; B; E]; [C; D; F]]) None [])
  = Ok [lit "region"; lit "kim"; lit "lee"; lit "total"; lit "sum"].
Proof.
  intros A B E C D F.
  apply (proj1 extract_headers_reconstructs _ [A; B; E] [C; D; F] []
           [(lit "region", 1%nat, 2%Z); (candidate_votes_label, 2%nat, 1%Z);
            (lit "total", 1%nat, 1%Z)]).
  - reflexivity.
  - repeat constructor.
Defined.

(** ** Data rows *)

Section Records.

Lemma uint_digits_inj d1 : ∀ d2, uint_digits d1 = uint_digits d2 → d1 = d2.
Proof.
  induction d1; intros []; simpl; intros H; try discriminate H;
    try reflexivity; injection H as H; f_equal; auto.
Qed.

Lemma str_of_nat_inj i j : str_of_nat i = str_of_nat j → i = j.
Proof.
  intros H%uint_digits_inj.
  rewrite <- (DecimalNat.Unsigned.of_to i), <- (DecimalNat.Unsigned.of_to j).
  by rewrite H.
Qed.

Variable headers : list str.

Lemma cell_key_header i h : headers !! i = Some h → cell_key headers i = h.
Proof. unfold cell_key. by intros ->. Qed.

Lemma cell_key_extra i :
  (length headers ≤ i)%nat →
  cell_key headers i = lit "Extra_Column_" ++ str_of_nat i.
Proof. unfold cell_key. intros H. by rewrite lookup_ge_None_2. Qed.

(** A key that no cell of the row writes keeps its binding. *)
Lemma map_cells_miss cells : ∀ i (m : gmap str str) key,
  (∀ j c, cells !! j = Some c → cell_key headers (i + j) ≠ key) →
  map_cells headers i cells m !! key = m !! key.
Proof.
  induction cells as [|c cells IH]; intros i m key Hmiss; simpl; [done|].
  rewrite IH.
  - apply lookup_insert_ne. rewrite <- (Nat.add_0_r i). by apply (Hmiss 0%nat c).
  - intros j c' Hj. rewrite Nat.add_succ_comm. by apply (Hmiss (S j) c').
Qed.

(** The last cell written under a key decides its binding. *)
Lemma map_cells_hit cells : ∀ i (m : gmap str str) j c,
  cells !! j = Some c →
  (∀ j' c', (j < j')%nat → cells !! j' = Some c' →
            cell_key headers (i + j') ≠ cell_key headers (i + j)) →
  map_cells headers i cells m !! cell_key headers (i + j) = Some (cell_text c).
Proof.
  induction cells as [|c0 cells IH]; intros i m j c Hj Hlast; [done|].
  destruct j as [|j]; simpl in *.
  - injection Hj as ->. rewrite map_cells_miss.
    + rewrite Nat.add_0_r. apply lookup_insert_eq.
    + intros j c' Hj. rewrite Nat.add_succ_comm.
      apply (Hlast (S j) c'); [lia | done].
  - rewrite <- Nat.add_succ_comm. apply IH; [done|].
    intros j' c' Hlt Hj'. rewrite !Nat.add_succ_comm.
    apply (Hlast (S j') c'); [lia | done].
Qed.

Lemma fill_missing_present hs : ∀ (m : gmap str str) key v,
  m !! key = Some v → fill_missing hs m !! key = Some v.
Proof.
  induction hs as [|h hs IH]; intros m key v Hm; simpl; [done|].
  apply IH. destruct (m !! h) eqn:Hh; [done|].
  rewrite lookup_insert_ne; [done | congruence].
Qed.

Lemma fill_missing_absent hs : ∀ (m : gmap str str) key,
  m !! key = None →
  fill_missing hs m !! key = if bool_decide (key ∈ hs) then Some [] else None.
Proof.
  induction hs as [|h hs IH]; intros m key Hm; simpl; [done|].
  destruct (decide (key = h)) as [->|Hne].
  - rewrite Hm. rewrite bool_decide_eq_true_2 by apply list_elem_of_here.
    apply fill_missing_present, lookup_insert_eq.
  - rewrite IH.
    + rewrite (bool_decide_ext (key ∈ hs) (key ∈ h :: hs)); [done|].
      rewrite elem_of_cons. split; [by right|]. by intros [?|?].
    + destruct (m !! h); [done|]. by rewrite lookup_insert_ne.
Qed.

Lemma row_record_last_write cells i c :
  cells !! i = Some c →
  (∀ j, (i < j < length cells)%nat → cell_key headers j ≠ cell_key headers i) →
  row_record headers cells !! cell_key headers i = Some (cell_text c).
Proof.
  intros Hi Hlast. apply fill_missing_present.
  apply (map_cells_hit cells 0%nat ∅ i c Hi).
  intros j c' Hlt Hj. simpl. apply Hlast. split; [done|].
  by apply lookup_lt_Some in Hj.
Qed.

Lemma row_record_unwritten cells h :
  h ∈ headers →
  (∀ j, (j < length cells)%nat → cell_key headers j ≠ h) →
  row_record headers cells !! h = Some [].
Proof.
  intros Hin Hmiss. unfold row_record.
  rewrite fill_missing_absent, bool_decide_eq_true_2; [done..|].
  rewrite map_cells_miss; [done|].
  intros j c Hj. apply Hmiss. by apply lookup_lt_Some in Hj.
Qed.

Lemma row_record_header_key cells h :
  h ∈ headers → is_Some (row_record headers cells !! h).
Proof.
  intros Hin. unfold row_record.
  destruct (map_cells headers 0 cells ∅ !! h) as [v|] eqn:E.
  - exists v. by apply fill_missing_present.
  - exists []. by rewrite fill_missing_absent, bool_decide_eq_true_2.
Qed.

Lemma row_record_positional cells :
  NoDup headers →
  (∀ i, (length headers ≤ i < length cells)%nat →
        lit "Extra_Column_" ++ str_of_nat i ∉ headers) →
  positional_record headers cells (row_record headers cells).
Proof.
  intros Hnd Hextra. split; [|split].
  - intros i h c Hh Hc. rewrite <- (cell_key_header i h Hh).
    apply row_record_last_write; [done|].
    intros j [Hij Hj]. rewrite (cell_key_header i h Hh).
    destruct (headers !! j) as [h'|] eqn:Hj'.
    + rewrite (cell_key_header j h' Hj'). intros ->.
      pose proof (NoDup_lookup _ _ _ _ Hnd Hh Hj'). lia.
    + apply lookup_ge_None_1 in Hj'. rewrite cell_key_extra by done.
      intros Heq. apply (Hextra j); [lia|]. rewrite Heq.
      by apply list_elem_of_lookup_2 in Hh.
  - intros i c Hi Hc. rewrite <- (cell_key_extra i Hi).
    apply row_record_last_write; [done|].
    intros j [Hij Hj]. rewrite !cell_key_extra by lia.
    intros Heq%app_inv_head%str_of_nat_inj. lia.
  - intros i h Hh Hi. apply row_record_unwritten.
    + by apply list_elem_of_lookup_2 in Hh.
    + intros j Hj. destruct (headers !! j) as [h'|] eqn:Hj'.
      * rewrite (cell_key_header j h' Hj'). intros ->.
        pose proof (NoDup_lookup _ _ _ _ Hnd Hh Hj'). lia.
      * apply lookup_ge_None_1 in Hj'. apply lookup_lt_Some in Hh. lia.
Qed.

End Records.

(** C6 as stated fails on a repeated label: with headers [a, b, a] and the
    two-cell row [x, y] the third header has no cell of its own, yet the
    record keeps [x] under [a] instead of the empty string. *)
Lemma ragged_row_repeated_label :
  ¬ positional_record [lit "a"; lit "b"; lit "a"]
      [Cell (lit "x") (Ok 1%Z) (Ok 1%Z); Cell (lit "y") (Ok 1%Z) (Ok 1%Z)]
      (row_record [lit "a"; lit "b"; lit "a"]
         [Cell (lit "x") (Ok 1%Z) (Ok 1%Z); Cell (lit "y") (Ok 1%Z) (Ok 1%Z)]).
Proof.
  intros (_ & _ & Hfill).
  specialize (Hfill 2%nat (lit "a") eq_refl (Nat.le_refl _)).
  vm_compute in Hfill. discriminate Hfill.
Qed.

(** C6, amended.  Every record has every header as a key, and each cell is
    stored under its header, or under [Extra_Column_i] past the headers,
    unless a later cell of the row is stored under the same key.  When the
    headers are pairwise distinct and none of them is a synthetic key of the
    row, the record is positional: cell [i] under header [i], overflow cells
    under their synthetic keys, headers without a cell empty; distinct
    [h1, h2, h3] with the row [v1, v2] give [{h1: v1, h2: v2, h3: ''}].  Rows
    without cells yield no record. *)
Theorem row_record_ragged :
  (∀ headers cells h, h ∈ headers → is_Some (row_record headers cells !! h)) ∧
  (∀ headers cells i c,
      cells !! i = Some c →
      (∀ j, (i < j < length cells)%nat → cell_key headers j ≠ cell_key headers i) →
      row_record headers cells !! cell_key headers i = Some (cell_text c)) ∧
  (∀ headers cells,
      NoDup headers →
      (∀ i, (length headers ≤ i < length cells)%nat →
            lit "Extra_Column_" ++ str_of_nat i ∉ headers) →
      positional_record headers cells (row_record headers cells)) ∧
  (∀ h1 h2 h3 v1 v2,
      NoDup [h1; h2; h3] →
      row_record [h1; h2; h3] [v1; v2]
      = <[h3 := []]> (<[h2 := cell_text v2]> (<[h1 := cell_text v1]> ∅))) ∧
  (∀ t headers,
      _extract_data_rows t headers
      = map (row_record headers) (filter (λ cells, cells ≠ []) (data_rows t))).
Proof.
  split; [|split; [|split; [|split]]].
  - intros headers cells h. apply row_record_header_key.
  - intros headers cells i c. apply row_record_last_write.
  - intros headers cells. apply row_record_positional.
  - intros h1 h2 h3 v1 v2 Hnd.
    apply NoDup_cons in Hnd as [Hh1 Hnd]. apply NoDup_cons in Hnd as [Hh2 _].
    apply not_elem_of_cons in Hh1 as [H12 Hh1].
    apply not_elem_of_cons in Hh1 as [H13 _].
    apply not_elem_of_cons in Hh2 as [H23 _].
    unfold row_record. cbn [map_cells fill_missing cell_key lookup list_lookup].
    rewrite lookup_insert_ne, lookup_insert_eq by done.
    rewrite lookup_insert_eq.
    by rewrite !lookup_insert_ne, lookup_empty by done.
  - intros t headers. unfold _extract_data_rows.
    induction (data_rows t) as [|cells rows IH]; [done|].
    destruct cells as [|c cells].
    + rewrite filter_cons_False by (intros Hne; by apply Hne). exact IH.
    + rewrite filter_cons_True by done. rewrite map_cons, <- IH. done.
Qed.

Lemma row_record_ragged_witness :
  let v1 := Cell (lit "11") (Ok 1%Z) (Ok 1%Z) in
  let v2 := Cell (lit " 22 ") (Ok 1%Z) (Ok 1%Z) in
  is_Some (row_record [lit "h1"; lit "h2"; lit "h3"] [v1; v2] !! lit "h3") ∧
  row_record [lit "h1"; lit "h2"; lit "h3"] [v1; v2]
  = <[lit "h3" := []]> (<[lit "h2" := lit "22"]> (<[lit "h1" := lit "11"]> ∅)).
Proof.
  intros v1 v2. split.
  - apply (proj1 row_record_ragged). vm_compute. do 2 right. left.
  - apply (proj1 (proj2 (proj2 (proj2 row_record_ragged))) _ _ _ v1 v2).
    apply (bool_decide_unpack _). vm_compute. exact I.
Defined.

(** ** Retrying requests *)

Section Retry.

Variable w : world.

Ltac run_crawl :=
  unfold try_except_st, session_call, sleep, uniform, lift, raise, retry_delay;
  unfold mbind, crawl_bind, mret, crawl_ret;
  cbn -[Z.pow Z.of_nat Qmult Qplus Qminus inject_Z RETRY_DELAY str_of_nat lit
        Nat.eqb Nat.sub isinstance].

Lemma attempt_request_fails max_retries attempt req st :
  let slept :=
    if (0 <? attempt)%nat
    then [Slept (retry_delay w attempt (length (trace st)))] else [] in
  let outcome := session_request w (length (trace st ++ slept)) req in
  request_fails outcome →
  attempt_request w max_retries attempt req st
  = (if (attempt =? max_retries - 1)%nat
     then Raise (Exn ElectionCrawlerError
                   (lit "Failed to make request after " ++ str_of_nat max_retries
                    ++ lit " attempts: " ++ exn_str (failure_of outcome)))
     else Ok None,
     State (stats st) (files st) ((trace st ++ slept) ++ [Requested req])).
Proof.
  intros slept outcome. subst slept outcome. unfold attempt_request.
  destruct (0 <? attempt)%nat; run_crawl; rewrite ?app_nil_r;
    (destruct (session_request w _ req) as [r|e]; cbn -[isinstance Nat.eqb Nat.sub lit str_of_nat];
     [ intros [msg Hmsg]; unfold raise_for_status; rewrite Hmsg;
       cbn -[isinstance Nat.eqb Nat.sub lit str_of_nat];
       by destruct (attempt =? max_retries - 1)%nat
     | intros ->; by destruct (attempt =? max_retries - 1)%nat ]).
Qed.

(** The jitter factor stays within the bounds of [random.uniform]. *)
Lemma jitter_range tick :
  (0 <= random_random w tick)%Q → (random_random w tick <= 1)%Q →
  ((1 # 2) <= (1 # 2) + ((3 # 2) - (1 # 2)) * random_random w tick)%Q ∧
  ((1 # 2) + ((3 # 2) - (1 # 2)) * random_random w tick <= (3 # 2))%Q.
Proof.
  intros H0 H1. split; lra.
Qed.

End Retry.

(** Three failing attempts in a row exhaust the retries. *)
Lemma make_request_three_failures w req st :
  let n := length (trace st) in
  request_fails (session_request w n req) →
  request_fails (session_request w (n + 2) req) →
  request_fails (session_request w (n + 4) req) →
  _make_request_with_retry w req st
  = (Raise (Exn ElectionCrawlerError
              (lit "Failed to make request after 3 attempts: "
               ++ exn_str (failure_of (session_request w (n + 4) req)))),
     State (stats st) (files st)
       (trace st ++ [Requested req;
                     Slept (retry_delay w 1 (n + 1)); Requested req;
                     Slept (retry_delay w 2 (n + 3)); Requested req])).
Proof.
  intros n H0 H2 H4. subst n.
  unfold _make_request_with_retry, MAX_RETRIES.
  cbn [seq retry_loop]. unfold mbind at 1, crawl_bind at 1.
  rewrite attempt_request_fails by (cbn [Nat.ltb Nat.leb]; by rewrite app_nil_r).
  cbn [Nat.ltb Nat.leb Nat.eqb Nat.sub]. unfold mbind at 1, crawl_bind at 1.
  rewrite attempt_request_fails.
  2: { cbn [Nat.ltb Nat.leb trace]. rewrite app_nil_r, !length_app. cbn [length].
       by replace (length (trace st) + 1 + 1)%nat with (length (trace st) + 2)%nat by lia. }
  cbn [Nat.ltb Nat.leb Nat.eqb Nat.sub]. unfold mbind at 1, crawl_bind at 1.
  rewrite attempt_request_fails.
  2: { cbn [Nat.ltb Nat.leb trace]. rewrite app_nil_r, !length_app. cbn [length].
       by replace (length (trace st) + 1 + 1 + 1 + 1)%nat
         with (length (trace st) + 4)%nat by lia. }
  cbn [Nat.ltb Nat.leb Nat.eqb Nat.sub trace stats files].
  rewrite !app_nil_r, <- !app_assoc, !length_app. cbn [length app].
  repeat f_equal; lia.
Qed.

(** C4. With [MAX_RETRIES = 3], a request whose every attempt fails calls
    [session.request] exactly three times, sleeps
    [RETRY_DELAY * 2^attempt * uniform(0.5, 1.5)] before the second and the
    third call and not before the first, and then raises
    [ElectionCrawlerError] with the text of the last failure. *)
Theorem retry_exhausted w req st :
  (∀ k, request_fails (session_request w k req)) →
  let n := length (trace st) in
  _make_request_with_retry w req st
  = (Raise (Exn ElectionCrawlerError
              (lit "Failed to make request after 3 attempts: "
               ++ exn_str (failure_of (session_request w (n + 4) req)))),
     State (stats st) (files st)
       (trace st ++ [Requested req;
                     Slept (retry_delay w 1 (n + 1)); Requested req;
                     Slept (retry_delay w 2 (n + 3)); Requested req])).
Proof.
  intros Hfail n. by apply make_request_three_failures.
Qed.

Lemma retry_exhausted_witness :
  let refused := Raise (Exn ConnectionError (lit "refused")) in
  let w := World (λ _ _, refused) (λ _, 1 # 4) (λ _, 0) (λ _, Ok tt) (λ _, []) in
  let req := Request GET INIT_PAGE_URL [] [] false TIMEOUT in
  let st := State (Stats 0 0 0 0) ∅ [] in
  _make_request_with_retry w req st
  = (Raise (Exn ElectionCrawlerError
              (lit "Failed to make request after 3 attempts: refused")),
     State (Stats 0 0 0 0) ∅
       [Requested req; Slept (2 * 2 * ((1 # 2) + ((3 # 2) - (1 # 2)) * (1 # 4)));
        Requested req; Slept (2 * 4 * ((1 # 2) + ((3 # 2) - (1 # 2)) * (1 # 4)));
        Requested req]).
Proof.
  intros refused w req st.
  apply (retry_exhausted w req st). intros k. reflexivity.
Defined.

(** ** Content classification *)

Section Classifier.

(** Decoding with [errors='ignore'] never raises, so the [except] clause
    of [_detect_content_type] is never entered when the body can be
    read. *)
Lemma decode_ignore_total b :
  decode_utf8 Ignore b = Ok (omap scalar_of (utf8_items 0 (map Byte.to_N b))).
Proof. reflexivity. Qed.

(** The decision chain the classifier realises. *)
Lemma detect_content_type_chain r body :
  content r = Ok body →
  _detect_content_type r
  = Ok (let content_type := lower (default [] (content_type r)) in
        let text := lower (omap scalar_of (utf8_items 0 (map Byte.to_N (take 4096 body)))) in
        if contains (lit "text/html") content_type
           || contains (lit "application/html") content_type then html
        else if contains (lit "application/vnd.ms-excel") content_type
                || contains (lit "application/excel") content_type then excel
        else if existsb (λ indicator, contains indicator text) html_indicators then html
        else if startswith (take 8 body) OLE2_MAGIC
                || startswith (take 8 body) ZIP_MAGIC then excel
        else unknown).
Proof.
  intros Hbody. unfold _detect_content_type, sniff_content. rewrite Hbody.
  cbv zeta.
  destruct (contains (lit "text/html") _ || contains (lit "application/html") _); [done|].
  destruct (contains (lit "application/vnd.ms-excel") _ || contains (lit "application/excel") _);
    [done|].
  cbn [mbind result_bind]. rewrite decode_ignore_total. cbn [mbind result_bind].
  destruct (existsb _ html_indicators); [done|].
  by destruct (startswith (take 8 body) OLE2_MAGIC || startswith (take 8 body) ZIP_MAGIC).
Qed.

(** A readable body is classified as a spreadsheet only by its declared
    type or by its signature. *)
Lemma excel_by_header_or_magic r body :
  content r = Ok body →
  _detect_content_type r = Ok excel →
  contains (lit "application/vnd.ms-excel") (lower (default [] (content_type r)))
  || contains (lit "application/excel") (lower (default [] (content_type r)))
  || startswith (take 8 body) OLE2_MAGIC || startswith (take 8 body) ZIP_MAGIC = true.
Proof.
  intros Hbody. rewrite (detect_content_type_chain r body Hbody). cbv zeta.
  destruct (contains (lit "text/html") _ || contains (lit "application/html") _); [done|].
  destruct (contains (lit "application/vnd.ms-excel") _ || contains (lit "application/excel") _);
    [done|].
  destruct (existsb _ html_indicators); [done|].
  rewrite orb_false_l.
  by destruct (startswith (take 8 body) OLE2_MAGIC || startswith (take 8 body) ZIP_MAGIC).
Qed.

(** The declared type [application/octet-stream] over a ZIP signature is a
    spreadsheet. *)
Lemma octet_stream_zip_is_excel :
  _detect_content_type
    (Response 200 (lit "OK") REPORT_URL (Some (lit "application/octet-stream")) None
       (Ok ZIP_MAGIC) (Raise (Exn JSONDecodeError [])) (λ _, None))
  = Ok excel.
Proof. reflexivity. Qed.

End Classifier.

(** C1, at the input where the code departs from it.  The body [ff fe fd]
    is not UTF-8 text -- decoding it strictly raises -- and the response
    declares no content type; rule (5) asks for a spreadsheet, and the
    classifier answers [unknown]. *)
Theorem detect_content_type_undecodable :
  let body := [Byte.xff; Byte.xfe; Byte.xfd] in
  let r := Response 200 (lit "OK") REPORT_URL None None (Ok body)
             (Raise (Exn JSONDecodeError [])) (λ _, None) in
  decode_utf8 Strict (take 4096 body)
  = Raise (Exn UnicodeDecodeError (lit "'utf-8' codec can't decode bytes")) ∧
  _detect_content_type r = Ok unknown.
Proof. split; reflexivity. Qed.

(** ** What the operations leave unchanged *)

Section Frames.

Variable w : world.
Variable self : crawler.

Lemma frames_bind {A B} (c : crawl A) (f : A → crawl B) :
  frames c → (∀ a, frames (f a)) → frames (c ≫= f).
Proof.
  intros Hc Hf st. unfold mbind, crawl_bind.
  destruct (Hc st) as [Hs Hfs]. destruct (c st) as [[a|e] st1]; cbn in *.
  - destruct (Hf a st1) as [Hs' Hfs']. split; congruence.
  - done.
Qed.

Lemma frames_try {A} (c : crawl A) classes (h : exn → crawl A) :
  frames c → (∀ e, frames (h e)) → frames (try_except_st c classes h).
Proof.
  intros Hc Hh st. unfold try_except_st.
  destruct (Hc st) as [Hs Hfs]. destruct (c st) as [[a|e] st1]; cbn in *; [done|].
  destruct (isinstance e classes); [|done].
  destruct (Hh e st1) as [Hs' Hfs']. split; congruence.
Qed.

Lemma frames_ret {A} (a : A) : frames (mret a).
Proof. by intros st. Qed.

Lemma frames_raise {A} e : frames (@raise A e).
Proof. by intros st. Qed.

Lemma frames_lift {A} (r : result A) : frames (lift r).
Proof. by intros st. Qed.

Lemma frames_session_call req : frames (session_call w req).
Proof. by intros st. Qed.

Lemma frames_sleep q : frames (sleep q).
Proof. by intros st. Qed.

Lemma frames_uniform a b : frames (uniform w a b).
Proof. by intros st. Qed.

Lemma frames_unix_time : frames (unix_time w).
Proof. by intros st. Qed.

Lemma frames_attempt_request max_retries attempt req :
  frames (attempt_request w max_retries attempt req).
Proof.
  unfold attempt_request. apply frames_try.
  - apply frames_bind.
    + destruct (0 <? attempt)%nat; [|apply frames_ret].
      apply frames_bind; [apply frames_uniform | intros; apply frames_sleep].
    + intros _. apply frames_bind; [apply frames_session_call|].
      intros r. apply frames_bind; [apply frames_lift | intros; apply frames_ret].
  - intros e. destruct (attempt =? max_retries - 1)%nat;
      [apply frames_raise | apply frames_ret].
Qed.

Lemma frames_retry_loop max_retries attempts req :
  frames (retry_loop w max_retries attempts req).
Proof.
  induction attempts as [|attempt attempts IH]; cbn [retry_loop].
  - apply frames_raise.
  - apply frames_bind; [apply frames_attempt_request|].
    intros [r|]; [apply frames_ret | exact IH].
Qed.

Lemma frames_make_request req : frames (_make_request_with_retry w req).
Proof. apply frames_retry_loop. Qed.

(** Resolving the file name reads the clock and changes nothing. *)
Lemma get_filename_state r city_code town_code st :
  (_get_filename_from_response w r city_code town_code st).2 = st.
Proof.
  unfold _get_filename_from_response, lift, unix_time.
  unfold mbind, crawl_bind, mret, crawl_ret.
  destruct (_detect_content_type r) as [kind|e]; [|done].
  destruct (header_base_filename r) as [[|c base]|]; by destruct kind.
Qed.

End Frames.

(** ** One download *)

Section Download.

Variable w : world.
Variable self : crawler.

Lemma isinstance_Exception e : isinstance e [Exception] = true.
Proof. destruct e as [[] msg]; reflexivity. Qed.

Lemma iter_slices_written fuel chunk_size : ∀ (body written : bytes) (file_size : N),
  (0 < chunk_size)%nat → (length body ≤ fuel)%nat →
  fold_left (λ '(written, file_size) chunk,
               match chunk with
               | [] => (written, file_size)
               | _ => (written ++ chunk, file_size + N.of_nat (length chunk))
               end) (iter_slices fuel chunk_size body) (written, file_size)
  = (written ++ body, file_size + N.of_nat (length body)).
Proof.
  induction fuel as [|fuel IH]; intros body written file_size Hchunk Hlen.
  - destruct body; [|simpl in Hlen; lia]. simpl. by rewrite app_nil_r, N.add_0_r.
  - destruct body as [|b body]; [simpl; by rewrite app_nil_r, N.add_0_r|].
    cbn [iter_slices fold_left].
    destruct (take chunk_size (b :: body)) as [|c chunk] eqn:Htake.
    { destruct chunk_size; [lia | discriminate Htake]. }
    rewrite <- Htake. rewrite IH; [|done|].
    + rewrite <- app_assoc, take_drop. f_equal.
      rewrite <- N.add_assoc, <- Nat2N.inj_add, <- length_app, take_drop. done.
    + rewrite length_drop. simpl in *. lia.
Qed.

(** The write loop stores the whole body and counts its length. *)
Lemma write_chunks_body body :
  write_chunks (iter_content CHUNK_SIZE body) = (body, N.of_nat (length body)).
Proof.
  unfold write_chunks, iter_content.
  rewrite iter_slices_written; [done| |done].
  unfold CHUNK_SIZE. lia.
Qed.

Lemma download_stages city_code city_name town_code town_name st :
  download_excel_for_location w self city_code city_name town_code town_name st
  = match _make_request_with_retry w
            (Request POST REPORT_URL []
               (report_payload w self city_code city_name town_code town_name)
               true TIMEOUT) st with
    | (Raise _, st1) => (Ok false, State (add_error (stats st1)) (files st1) (trace st1))
    | (Ok r, st1) =>
        let '(b, st2) :=
          download_outcome w st1 r
            (_get_filename_from_response w r city_code town_code st1).1 in
        (Ok b, st2)
    end.
Proof.
  unfold download_excel_for_location, download_body, try_except_st.
  unfold mbind at 1, crawl_bind at 1.
  destruct (_make_request_with_retry w _ st) as [[r|e] st1].
  2: { by rewrite isinstance_Exception. }
  unfold mbind at 1, crawl_bind at 1.
  pose proof (get_filename_state w r city_code town_code st1) as Hst.
  destruct (_get_filename_from_response w r city_code town_code st1) as [[filename|e] st2];
    cbn in Hst; subst st2; cbn [fst download_outcome].
  2: { by rewrite isinstance_Exception. }
  unfold get_files, set_files, update_stats, lift.
  unfold mbind, crawl_bind, mret, crawl_ret. cbn [files stats trace].
  destruct (_file_exists_and_valid (files st1) filename); [done|].
  destruct (open_wb w filename) as [[]|e]; [|by rewrite isinstance_Exception].
  rewrite write_chunks_body. cbn [files stats trace].
  unfold stream_end. destruct (stream_error r) as [e|]; [by rewrite isinstance_Exception|].
  unfold _validate_downloaded_content. cbn [files]. rewrite lookup_insert_eq.
  by destruct (length (received r) <? 512)%nat.
Qed.

End Download.

(** C10. Every invocation of [download_excel_for_location] returns, having
    incremented exactly one of [downloaded], [skipped] and [errors] by one;
    it returns [True] exactly when that counter is [downloaded] or
    [skipped]; and [total_size] changes only together with [downloaded]. *)
Theorem download_counts_one w self city_code city_name town_code town_name st :
  ∃ b st',
    download_excel_for_location w self city_code city_name town_code town_name st
    = (Ok b, st') ∧
    let s := stats st in
    let s' := stats st' in
    (downloaded s' = downloaded s + 1 ∧ skipped s' = skipped s ∧ errors s' = errors s
     ∧ total_size s < total_size s' ∧ b = true)
    ∨ (downloaded s' = downloaded s ∧ skipped s' = skipped s + 1 ∧ errors s' = errors s
       ∧ total_size s' = total_size s ∧ b = true)
    ∨ (downloaded s' = downloaded s ∧ skipped s' = skipped s ∧ errors s' = errors s + 1
       ∧ total_size s' = total_size s ∧ b = false).
Proof.
  rewrite download_stages.
  destruct (frames_make_request w
              (Request POST REPORT_URL []
                 (report_payload w self city_code city_name town_code town_name)
                 true TIMEOUT) st) as [Hstats _].
  destruct (_make_request_with_retry w _ st) as [[r|e] st1]; cbn [snd] in Hstats.
  2: { eexists _, _. split; [done|]. cbn. rewrite Hstats. by right; right. }
  unfold download_outcome.
  destruct ((_get_filename_from_response w r city_code town_code st1).1) as [filename|e].
  2: { eexists _, _. split; [done|]. cbn. rewrite Hstats. by right; right. }
  destruct (_file_exists_and_valid (files st1) filename).
  { eexists _, _. split; [done|]. cbn. rewrite Hstats. by right; left. }
  destruct (open_wb w filename) as [[]|e].
  2: { eexists _, _. split; [done|]. cbn. rewrite Hstats. by right; right. }
  destruct (stream_error r) as [e|].
  { eexists _, _. split; [done|]. cbn. rewrite Hstats. by right; right. }
  destruct (Nat.ltb_spec (length (received r)) 512).
  { eexists _, _. split; [done|]. cbn. rewrite Hstats. by right; right. }
  eexists _, _. split; [done|]. cbn. rewrite Hstats. left.
  repeat split; lia.
Qed.

(** ** Skipping files that exist *)

Section Skip.

Variable w : world.
Variable self : crawler.

Lemma rfind_from_absent c s : ∀ i found, c ∉ s → rfind_from c s i found = found.
Proof.
  induction s as [|d s IH]; intros i found Hc; [done|].
  apply not_elem_of_cons in Hc as [Hne Hc]. simpl.
  rewrite IH by done. destruct (N.eqb_spec d c); [congruence | done].
Qed.

Lemma rfind_from_last c s tail : ∀ i found,
  c ∉ tail → rfind_from c (s ++ c :: tail) i found = (i + Z.of_nat (length s))%Z.
Proof.
  induction s as [|d s IH]; intros i found Hc; simpl.
  - rewrite N.eqb_refl, rfind_from_absent by done. lia.
  - rewrite IH by done. lia.
Qed.

Lemma suffix_no_dot name : 0x2e ∉ name → suffix name = [].
Proof.
  intros H. unfold suffix, rfind. by rewrite rfind_from_absent.
Qed.

Lemma suffix_after_stem stem ext :
  stem ≠ [] → ext ≠ [] → 0x2e ∉ ext → suffix (stem ++ 0x2e :: ext) = 0x2e :: ext.
Proof.
  intros Hstem Hext Hdot. unfold suffix, rfind.
  rewrite rfind_from_last by done. rewrite length_app. cbn [length].
  destruct stem as [|c stem]; [done|]. destruct ext as [|e ext]; [done|].
  cbn [length].
  destruct (Z.ltb_spec 0 (0 + Z.of_nat (S (length stem)))); [|lia].
  destruct (Z.ltb_spec (0 + Z.of_nat (S (length stem)))
              (Z.of_nat (S (length stem) + S (S (length ext))) - 1)); [|lia].
  cbn [andb]. rewrite Z.add_0_l, Nat2Z.id.
  change (S (length stem)) with (length (c :: stem)). by rewrite drop_app_length.
Qed.

(** For a base name without a dot the probed paths are the target and the
    base name with each alternative extension. *)
Lemma probed_paths_plain stem ext :
  stem ≠ [] → 0x2e ∉ stem → ext ≠ [] → 0x2e ∉ ext →
  probed_paths (stem ++ 0x2e :: ext)
  = [stem ++ 0x2e :: ext; stem ++ lit ".html"; stem ++ lit ".xls"; stem ++ lit ".xlsx"].
Proof.
  intros Hstem Hplain Hext Hdot. unfold probed_paths.
  assert (with_suffix (stem ++ 0x2e :: ext) [] = stem) as ->.
  { unfold with_suffix. rewrite suffix_after_stem by done.
    rewrite length_app, Nat.add_sub, take_app_length. apply app_nil_r. }
  unfold with_suffix. rewrite suffix_no_dot by done.
  cbn [length]. rewrite Nat.sub_0_r, firstn_all. done.
Qed.

Lemma file_exists_first_existing fs filepath :
  _file_exists_and_valid fs filepath
  = match first_existing fs (probed_paths filepath) with
    | Some (_, file) => negb (length file <? 512)%nat
    | None => false
    end.
Proof.
  unfold _file_exists_and_valid, probed_paths, alternative_extensions.
  cbn [map first_existing].
  destruct (fs !! filepath); [done|].
  repeat (destruct (fs !! with_suffix _ _); [done|]). done.
Qed.

Lemma download_skips city_code city_name town_code town_name st r st1 filename :
  _make_request_with_retry w
    (report_request w self city_code city_name town_code town_name) st = (Ok r, st1) →
  (_get_filename_from_response w r city_code town_code st1).1 = Ok filename →
  _file_exists_and_valid (files st) filename = true →
  download_excel_for_location w self city_code city_name town_code town_name st
  = (Ok true, State (add_skipped (stats st)) (files st) (trace st1)).
Proof.
  intros Hreq Hname Hvalid. rewrite download_stages.
  destruct (frames_make_request w
              (report_request w self city_code city_name town_code town_name) st)
    as [Hstats Hfiles].
  unfold report_request in *. rewrite Hreq in *. cbn [snd] in *.
  rewrite Hname. unfold download_outcome. by rewrite Hfiles, Hvalid, Hstats.
Qed.

Lemma download_without_skip city_code city_name town_code town_name st r st1 filename :
  _make_request_with_retry w
    (report_request w self city_code city_name town_code town_name) st = (Ok r, st1) →
  (_get_filename_from_response w r city_code town_code st1).1 = Ok filename →
  _file_exists_and_valid (files st) filename = false →
  skipped (stats (download_excel_for_location w self city_code city_name
                    town_code town_name st).2) = skipped (stats st).
Proof.
  intros Hreq Hname Hvalid. rewrite download_stages.
  destruct (frames_make_request w
              (report_request w self city_code city_name town_code town_name) st)
    as [Hstats Hfiles].
  unfold report_request in *. rewrite Hreq in *. cbn [snd] in *.
  rewrite Hname. unfold download_outcome. rewrite Hfiles, Hvalid, Hstats.
  destruct (open_wb w filename) as [[]|e]; [|done].
  destruct (stream_error r) as [e|]; [done|].
  by destruct (length (received r) <? 512)%nat.
Qed.

End Skip.

(** C3 as stated fails when the target exists but is too small: with
    [report.html] of 100 bytes and its sibling [report.xls] of 600 bytes on
    disk, a response resolved to [report.html] is downloaded over the small
    file instead of being skipped. *)
Lemma skip_small_target_valid_sibling :
  let r := Response 200 (lit "OK") REPORT_URL (Some (lit "text/html"))
             (Some (lit "attachment; filename=report.xls"))
             (Ok (repeat Byte.x20 600)) (Raise (Exn JSONDecodeError [])) (λ _, None) in
  let w := World (λ _ _, Ok r) (λ _, 0%Q) (λ _, 0) (λ _, Ok tt) (λ _, []) in
  let st := State (Stats 0 0 0 0)
              (<[lit "report.html" := repeat Byte.x00 100]>
                 (<[lit "report.xls" := repeat Byte.x00 600]> ∅)) [] in
  ¬ skips_whenever_valid w (Crawler DEFAULT_ELECTION_ID DEFAULT_ELECTION_CODE)
      (JStr (lit "11")) (JStr (lit "Seoul")) (JStr (lit "1101")) (JStr (lit "Jongno")) st.
Proof.
  intros r w st Hskip.
  specialize (Hskip r
                (State (stats st) (files st)
                   [Requested (report_request w (Crawler DEFAULT_ELECTION_ID DEFAULT_ELECTION_CODE)
                                 (JStr (lit "11")) (JStr (lit "Seoul"))
                                 (JStr (lit "1101")) (JStr (lit "Jongno")))])
                (lit "report.html") eq_refl eq_refl).
  assert (Hsibling : ∃ p file,
             p ∈ lit "report.html"
                 :: map (λ ext, (splitext (lit "report.html")).1 ++ ext) alternative_extensions
             ∧ files st !! p = Some file ∧ (512 ≤ length file)%nat).
  { exists (lit "report.xls"), (repeat Byte.x00 600). split; [|split].
    - vm_compute. do 2 right. left.
    - vm_compute. reflexivity.
    - rewrite repeat_length. lia. }
  apply Hskip in Hsibling.
  apply (f_equal (λ out, skipped (stats out.2))) in Hsibling.
  vm_compute in Hsibling. discriminate Hsibling.
Qed.

(** C3, amended.  Once the request has returned a response and the target
    name is resolved, the first of the probed paths -- the target, then the
    base name with [.html], [.xls], [.xlsx] -- that exists decides: if it
    holds at least 512 bytes the download is recorded as skipped, returns
    [True] and leaves files and the other statistics as they were; if it is
    smaller, or no probed path exists, [skipped] is not incremented.  For a
    base name without a dot the probed siblings are the base name followed
    by each alternative extension. *)
Theorem skip_first_existing :
  (∀ w self city_code city_name town_code town_name st r st1 filename,
      _make_request_with_retry w
        (report_request w self city_code city_name town_code town_name) st = (Ok r, st1) →
      (_get_filename_from_response w r city_code town_code st1).1 = Ok filename →
      match first_existing (files st) (probed_paths filename) with
      | Some (p, file) =>
          if (length file <? 512)%nat
          then skipped (stats (download_excel_for_location w self city_code city_name
                                 town_code town_name st).2) = skipped (stats st)
          else download_excel_for_location w self city_code city_name town_code town_name st
               = (Ok true, State (add_skipped (stats st)) (files st) (trace st1))
      | None =>
          skipped (stats (download_excel_for_location w self city_code city_name
                            town_code town_name st).2) = skipped (stats st)
      end) ∧
  (∀ stem ext,
      stem ≠ [] → 0x2e ∉ stem → ext ≠ [] → 0x2e ∉ ext →
      probed_paths (stem ++ 0x2e :: ext)
      = [stem ++ 0x2e :: ext; stem ++ lit ".html"; stem ++ lit ".xls"; stem ++ lit ".xlsx"]).
Proof.
  split; [|apply probed_paths_plain].
  intros w self city_code city_name town_code town_name st r st1 filename Hreq Hname.
  pose proof (file_exists_first_existing (files st) filename) as Hfirst.
  destruct (first_existing (files st) (probed_paths filename)) as [[p file]|].
  - destruct (length file <? 512)%nat; cbn [negb] in Hfirst.
    + by eapply download_without_skip.
    + by eapply download_skips.
  - by eapply download_without_skip.
Qed.

(** ** Listing sub-regions and running the crawl *)

Section Directory.

Variable w : world.
Variable self : crawler.

(** Exhausted retries surface from the sub-region lookup: the error raised
    by [_make_request_with_retry] is neither a [RequestException] nor a
    [ValueError]. *)
Lemma town_codes_retries_exhausted city_code st :
  let n := length (trace st) in
  let req := town_request self city_code in
  request_fails (session_request w n req) →
  request_fails (session_request w (n + 2) req) →
  request_fails (session_request w (n + 4) req) →
  ∃ msg st',
    get_town_codes_for_city w self city_code st = (Raise (Exn ElectionCrawlerError msg), st').
Proof.
  intros n req H0 H2 H4. unfold get_town_codes_for_city, try_except_st.
  unfold mbind, crawl_bind.
  fold (town_request self city_code). fold req.
  rewrite (make_request_three_failures w req st H0 H2 H4).
  cbn [isinstance existsb issubclass exn_cls]. eauto.
Qed.

(** A body that is not JSON gives the empty list. *)
Lemma town_codes_malformed_json city_code st r st1 e :
  _make_request_with_retry w (town_request self city_code) st = (Ok r, st1) →
  json_body r = Raise e →
  isinstance e [RequestException; ValueError] = true →
  get_town_codes_for_city w self city_code st = (Ok [], st1).
Proof.
  intros Hreq Hjson He. unfold get_town_codes_for_city, try_except_st.
  unfold mbind at 1, crawl_bind at 1.
  fold (town_request self city_code). rewrite Hreq.
  unfold lift. rewrite Hjson. cbn [mbind result_bind]. by rewrite He.
Qed.

Lemma town_codes_of_entries entries :
  town_codes_of (map town_entry entries) = Ok (towns_of_entries entries).
Proof.
  unfold towns_of_entries.
  induction entries as [|[c n] entries IH]; [done|].
  cbn [map town_codes_of]. unfold town_entry at 1. cbn [fst snd].
  change (py_get _ (lit "CODE")) with (Ok (JStr c)).
  cbn [mbind result_bind is_str].
  destruct (decide (c = lit "-1")) as [->|Hne].
  - rewrite bool_decide_eq_true_2 by done.
    rewrite filter_cons_False by (cbn; intros H; by apply H). exact IH.
  - rewrite bool_decide_eq_false_2 by done.
    change (py_getitem _ (lit "CODE")) with (Ok (JStr c)).
    change (py_getitem _ (lit "NAME")) with (Ok (JStr n)).
    cbn [mbind result_bind]. rewrite IH. cbn [mbind result_bind mret result_ret].
    by rewrite filter_cons_True by done.
Qed.

(** Both accepted shapes, the bare array and the array wrapped as
    [jsonResult.body], list the entries other than ["-1"]. *)
Lemma town_codes_well_formed city_code st r st1 entries :
  _make_request_with_retry w (town_request self city_code) st = (Ok r, st1) →
  json_body r = Ok (JArr (map town_entry entries))
  ∨ json_body r
    = Ok (JObj [(lit "jsonResult", JObj [(lit "body", JArr (map town_entry entries))])]) →
  get_town_codes_for_city w self city_code st = (Ok (towns_of_entries entries), st1).
Proof.
  intros Hreq Hjson. unfold get_town_codes_for_city, try_except_st.
  unfold mbind at 1, crawl_bind at 1.
  fold (town_request self city_code). rewrite Hreq. unfold lift.
  destruct Hjson as [-> | ->]; cbn [mbind result_bind].
  - unfold town_data_of. cbn [py_in mbind result_bind].
    assert (existsb (is_str (lit "jsonResult")) (map town_entry entries) = false) as ->.
    { induction entries as [|cn entries IH]; [done | exact IH]. }
    cbn [mbind result_bind mret result_ret py_iter].
    by rewrite town_codes_of_entries.
  - change (town_data_of _) with (Ok (JArr (map town_entry entries))).
    cbn [mbind result_bind py_iter]. by rewrite town_codes_of_entries.
Qed.

(** Whatever goes wrong inside one download, the operation returns. *)
Lemma download_returns city_code city_name town_code town_name st :
  ∃ b st',
    download_excel_for_location w self city_code city_name town_code town_name st
    = (Ok b, st').
Proof.
  rewrite download_stages.
  destruct (_make_request_with_retry w _ st) as [[r|e] st1]; [|eauto].
  destruct (download_outcome w st1 r _) as [b st2]. eauto.
Qed.

(** An exception of the request, of the file-name resolution, of opening
    the file or of reading the body is counted as one error. *)
Lemma download_failure_counted city_code city_name town_code town_name st :
  let out := download_excel_for_location w self city_code city_name town_code town_name st in
  out.1 = Ok false → errors (stats out.2) = errors (stats st) + 1.
Proof.
  intros out. subst out. rewrite download_stages.
  destruct (frames_make_request w
              (Request POST REPORT_URL []
                 (report_payload w self city_code city_name town_code town_name)
                 true TIMEOUT) st) as [Hstats _].
  destruct (_make_request_with_retry w _ st) as [[r|e] st1]; cbn [snd] in Hstats.
  2: { intros _. cbn. by rewrite Hstats. }
  unfold download_outcome.
  destruct ((_get_filename_from_response w r city_code town_code st1).1) as [filename|e].
  2: { intros _. cbn. by rewrite Hstats. }
  destruct (_file_exists_and_valid (files st1) filename); [done|].
  destruct (open_wb w filename) as [[]|e]; [|intros _; cbn; by rewrite Hstats].
  destruct (stream_error r) as [e|]; [intros _; cbn; by rewrite Hstats|].
  destruct (length (received r) <? 512)%nat; [|done].
  intros _. cbn. by rewrite Hstats.
Qed.

(** Failing to fetch the entry page aborts the run. *)
Lemma crawl_aborts_without_entry_page st :
  let n := length (trace st) in
  let req := Request GET INIT_PAGE_URL [] [] false TIMEOUT in
  request_fails (session_request w n req) →
  request_fails (session_request w (n + 2) req) →
  request_fails (session_request w (n + 4) req) →
  (crawl_all_locations w self st).1
  = Raise (Exn ElectionCrawlerError
             (lit "Failed to fetch city/town codes: "
              ++ lit "Failed to make request after 3 attempts: "
              ++ exn_str (failure_of (session_request w (n + 4) req)))).
Proof.
  intros n req H0 H2 H4.
  unfold crawl_all_locations, get_city_town_codes, try_except_st.
  unfold mbind, crawl_bind. fold req.
  rewrite (make_request_three_failures w req st H0 H2 H4).
  rewrite !isinstance_Exception. unfold raise. by rewrite isinstance_Exception.
Qed.

End Directory.

(** C5, at the inputs where the code departs from it.  With a transport that
    refuses every connection the sub-region lookup raises the crawler error
    of the exhausted retries instead of returning the empty list, and a body
    that is the JSON number 5 raises [TypeError]. *)
Theorem town_codes_lookup_raises :
  (get_town_codes_for_city offline default_crawler (JStr (lit "11")) initial_state).1
  = Raise (Exn ElectionCrawlerError (lit "Failed to make request after 3 attempts: refused")) ∧
  let five := Response 200 (lit "OK") TOWN_CODE_URL (Some (lit "application/json")) None
                (Ok [Byte.x35]) (Ok (JNum (lit "5"))) (λ _, None) in
  let w := World (λ _ _, Ok five) (λ _, 0%Q) (λ _, 0) (λ _, Ok tt) (λ _, []) in
  (get_town_codes_for_city w default_crawler (JStr (lit "11")) initial_state).1
  = Raise (type_error "argument of type 'int' is not iterable").
Proof. split; reflexivity. Qed.

(** C8, at the input where the code departs from it.  A download never
    raises, whatever fails inside it; but when the entry page lists region
    11 and every later request is refused, the failed sub-region lookup
    propagates and the run raises, in the sequential crawl and while the
    concurrent crawl prepares its tasks. *)
Theorem crawl_aborts_on_lookup_failure :
  (∀ w self city_code city_name town_code town_name st,
      ∃ b st',
        download_excel_for_location w self city_code city_name town_code town_name st
        = (Ok b, st')) ∧
  (get_city_town_codes offline_after_entry_page initial_state).1
  = Ok ([Location (JStr (lit "11")) (JStr (lit "Seoul"))], []) ∧
  (crawl_all_locations offline_after_entry_page default_crawler initial_state).1
  = Raise (Exn ElectionCrawlerError (lit "Failed to make request after 3 attempts: refused")) ∧
  (download_tasks offline_after_entry_page default_crawler
     [Location (JStr (lit "11")) (JStr (lit "Seoul"))]
     (get_city_town_codes offline_after_entry_page initial_state).2).1
  = Raise (Exn ElectionCrawlerError (lit "Failed to make request after 3 attempts: refused")).
Proof.
  split; [|split; [|split]].
  - intros. apply download_returns.
  - reflexivity.
  - vm_compute. reflexivity.
  - vm_compute. reflexivity.
Qed.

(** ** File names *)

Section Filenames.

Lemma lstrip_subseteq s c : c ∈ lstrip s → c ∈ s.
Proof.
  induction s as [|d s IH]; simpl; [done|].
  destruct (isspace d); [|done]. intros H. right. by apply IH.
Qed.

Lemma strip_subseteq s c : c ∈ strip s → c ∈ s.
Proof.
  unfold strip, rstrip. rewrite elem_of_reverse. intros H%lstrip_subseteq.
  rewrite elem_of_reverse in H. by apply lstrip_subseteq.
Qed.

Lemma lstrip_length s : (length (lstrip s) ≤ length s)%nat.
Proof.
  induction s as [|d s IH]; simpl; [done|].
  destruct (isspace d); simpl; lia.
Qed.

Lemma strip_length s : (length (strip s) ≤ length s)%nat.
Proof.
  unfold strip, rstrip. rewrite length_reverse.
  etrans; [apply lstrip_length|]. rewrite length_reverse. apply lstrip_length.
Qed.

(** [splitext] cuts the name in two. *)
Lemma splitext_app p : (splitext p).1 ++ (splitext p).2 = p.
Proof.
  unfold splitext. destruct (rfind 0x2f p <? rfind 0x2e p)%Z; [|apply app_nil_r].
  destruct (existsb _ _); [apply take_drop | apply app_nil_r].
Qed.

(** Replacing the invalid characters one after the other is a single pass
    that sends each of them to an underscore. *)
Lemma replace_invalid_map name :
  fold_left (λ f char, replace_char char 0x5f f) invalid_chars name
  = map sanitize_char name.
Proof.
  unfold sanitize_char, invalid_chars, replace_char. cbn [fold_left]. rewrite !map_map.
  apply map_ext. intros c. cbn [existsb].
  repeat match goal with
         | |- context [N.eqb c ?k] => destruct (N.eqb_spec c k) as [->|?]; [reflexivity|]
         end.
  reflexivity.
Qed.

Lemma replace_invalid_clean name c :
  c ∈ invalid_chars →
  c ∉ fold_left (λ f char, replace_char char 0x5f f) invalid_chars name.
Proof.
  intros Hc. rewrite replace_invalid_map. intros Hin.
  apply list_elem_of_In, in_map_iff in Hin as (d & Hd & _).
  unfold sanitize_char in Hd. destruct (existsb (N.eqb d) invalid_chars) eqn:E.
  - subst c. vm_compute in Hc. by repeat (inversion Hc as [|? ? ? Hc']; clear Hc; rename Hc' into Hc; subst).
  - subst c. apply not_true_iff_false in E. apply E, existsb_exists.
    exists d. split; [by apply list_elem_of_In | apply N.eqb_refl].
Qed.

Lemma sanitize_clean name c : c ∈ invalid_chars → c ∉ _sanitize_filename name.
Proof.
  intros Hc Hin. unfold _sanitize_filename in Hin. apply strip_subseteq in Hin.
  apply (replace_invalid_clean name c Hc).
  destruct (200 <? _)%nat; [|done].
  pose proof (splitext_app (fold_left (λ f char, replace_char char 0x5f f) invalid_chars name))
    as Happ.
  destruct (splitext _) as [stem ext]. cbn [fst snd] in Happ. rewrite <- Happ.
  apply elem_of_app in Hin as [Hin|Hin]; apply elem_of_app; [left|right]; [|done].
  by apply (subseteq_take 195 stem).
Qed.

Lemma sanitize_short name :
  (length name ≤ 200)%nat →
  _sanitize_filename name
  = strip (map sanitize_char name).
Proof.
  intros Hlen. unfold _sanitize_filename. rewrite replace_invalid_map.
  rewrite length_map. destruct (Nat.ltb_spec 200 (length name)); [lia | done].
Qed.

(** The sanitizer in one pass: replace, cut a name of more than 200
    characters to the first 195 of its stem followed by its extension, and
    trim. *)
Lemma sanitize_rule name :
  _sanitize_filename name
  = let replaced := map sanitize_char name in
    strip (if (200 <? length name)%nat
           then take 195 (splitext replaced).1 ++ (splitext replaced).2
           else replaced).
Proof.
  unfold _sanitize_filename. rewrite replace_invalid_map, length_map. cbv zeta.
  destruct (200 <? length name)%nat; [|done]. by destruct (splitext _).
Qed.

Lemma sanitize_length name :
  (length (splitext (map sanitize_char name)).2 ≤ 5)%nat →
  (length (_sanitize_filename name) ≤ 200)%nat.
Proof.
  intros Hext. unfold _sanitize_filename. rewrite replace_invalid_map.
  etrans; [apply strip_length|].
  destruct (Nat.ltb_spec 200 (length (map sanitize_char name)));
    [|done].
  destruct (splitext _) as [stem ext]. cbn [snd] in Hext.
  rewrite length_app, length_take. lia.
Qed.

Variable w : world.

Lemma get_filename_resolved r city_code town_code st kind :
  _detect_content_type r = Ok kind →
  _get_filename_from_response w r city_code town_code st
  = (Ok (match header_base_filename r with
         | Some (c :: base) => c :: base
         | _ => fallback_name w city_code town_code (length (trace st))
         end ++ extension_of kind), st).
Proof.
  intros Hkind. unfold _get_filename_from_response, lift, unix_time, fallback_name.
  unfold mbind, crawl_bind, mret, crawl_ret. rewrite Hkind.
  destruct (header_base_filename r) as [[|c base]|]; by destruct kind.
Qed.

End Filenames.

(** C7 as stated fails on a header name that has an extension: for
    [filename=report.xls] over a spreadsheet body the code answers
    [report.xls], where a base equal to the sanitized header name would give
    [report.xls.xls].  And the cut does not always reach 200 characters: a
    header name of 196 letters, a dot and a 10-letter extension is cut to
    the first 195 letters followed by the whole extension, 206 characters. *)
Lemma filename_extension_replaced :
  let r := Response 200 (lit "OK") REPORT_URL (Some (lit "application/vnd.ms-excel"))
             (Some (lit "attachment; filename=report.xls"))
             (Ok OLE2_MAGIC) (Raise (Exn JSONDecodeError [])) (λ _, None) in
  let code := (_get_filename_from_response offline r (JStr (lit "11")) (JStr (lit "1101")) initial_state).1 in
  let long_name := repeat 0x61 196 ++ lit "." ++ repeat 0x62 10 in
  _detect_content_type r = Ok excel ∧
  code = Ok (lit "report.xls") ∧
  code ≠ Ok (stated_filename r
               (fallback_name offline (JStr (lit "11")) (JStr (lit "1101")) 0) excel) ∧
  header_filename (lit "attachment; filename=" ++ long_name)
  = repeat 0x61 195 ++ lit "." ++ repeat 0x62 10 ∧
  length (header_filename (lit "attachment; filename=" ++ long_name)) = 206%nat.
Proof.
  intros r code long_name. split; [reflexivity|]. split; [reflexivity|].
  split; [vm_compute; discriminate|]. split; by vm_compute.
Qed.

(** C7, amended.  The resolved name is a base followed by [.xls] for a
    spreadsheet and [.html] for html or unknown content.  With a
    [Content-Disposition] header that has a [filename=] part, the base is the
    header name -- URL-decoded and sanitized -- with its last extension
    removed, unless that leaves nothing; otherwise the base is
    [election_report_{city}_{town}_{timestamp}].  Sanitizing replaces each
    invalid character by an underscore, cuts a name of more than 200
    characters to the first 195 characters of its stem followed by its
    extension, and trims whitespace; it leaves none of the invalid
    characters, and gives at most 200 characters whenever the extension has
    at most 5. *)
Theorem filename_resolution :
  (∀ w r city_code town_code st kind,
      _detect_content_type r = Ok kind →
      ∃ base,
        _get_filename_from_response w r city_code town_code st
        = (Ok (base ++ extension_of kind), st) ∧
        base ≠ [] ∧
        let fallback := fallback_name w city_code town_code (length (trace st)) in
        match content_disposition r with
        | Some cd =>
            if contains (lit "filename=") cd then
              header_filename cd = (splitext (header_filename cd)).1
                                   ++ (splitext (header_filename cd)).2 ∧
              base = (if bool_decide ((splitext (header_filename cd)).1 = [])
                      then fallback else (splitext (header_filename cd)).1)
            else base = fallback
        | None => base = fallback
        end) ∧
  (∀ name c, c ∈ invalid_chars → c ∉ _sanitize_filename name) ∧
  (∀ name,
      (length name ≤ 200)%nat →
      _sanitize_filename name
      = strip (map sanitize_char name)) ∧
  (∀ name,
      (200 < length name)%nat →
      _sanitize_filename name
      = strip (take 195 (splitext (map sanitize_char name)).1
               ++ (splitext (map sanitize_char name)).2)) ∧
  (∀ name,
      (length (splitext (map sanitize_char name)).2 ≤ 5)%nat →
      (length (_sanitize_filename name) ≤ 200)%nat).
Proof.
  split; [|split; [apply sanitize_clean | split; [apply sanitize_short | split]]].
  3: apply sanitize_length.
  2: { intros name Hlong. rewrite sanitize_rule. cbv zeta.
       by destruct (Nat.ltb_spec 200 (length name)); [|lia]. }
  intros w r city_code town_code st kind Hkind.
  rewrite (get_filename_resolved w r city_code town_code st kind Hkind).
  eexists. split; [reflexivity|].
  assert (Hfallback : fallback_name w city_code town_code (length (trace st)) ≠ []) by done.
  unfold header_base_filename. fold (header_filename <$> content_disposition r).
  destruct (content_disposition r) as [cd|]; [|done].
  destruct (contains (lit "filename=") cd); [|done].
  fold (header_filename cd).
  destruct ((splitext (header_filename cd)).1) as [|c base] eqn:Hstem.
  - split; [done|]. split; [|done]. by rewrite <- Hstem, splitext_app.
  - split; [done|]. split; [|done]. by rewrite <- Hstem, splitext_app.
Qed.

Lemma filename_resolution_witness :
  let r := Response 200 (lit "OK") REPORT_URL None
             (Some (lit "attachment; filename=%EA%B2%B0%EA%B3%BC+2025%3A1.xlsx"))
             (Ok OLE2_MAGIC) (Raise (Exn JSONDecodeError [])) (λ _, None) in
  (∃ base,
     _get_filename_from_response offline r (JStr (lit "11")) (JStr (lit "1101")) initial_state
     = (Ok (base ++ lit ".xls"), initial_state) ∧
     base = [0xacb0; 0xacfc] ++ lit " 2025_1") ∧
  _sanitize_filename (repeat 0x61 300 ++ lit ":.xls") = repeat 0x61 195 ++ lit ".xls".
Proof.
  intros r. split.
  - destruct (proj1 filename_resolution offline r (JStr (lit "11")) (JStr (lit "1101"))
                initial_state excel eq_refl) as (base & Hname & _ & _ & Hbase).
    exists base. split; [exact Hname | exact Hbase].
  - rewrite (proj1 (proj2 (proj2 (proj2 filename_resolution)))
               (repeat 0x61 300 ++ lit ":.xls")).
    + by vm_compute.
    + rewrite length_app, repeat_length. cbn. lia.
Defined.

Lemma skip_first_existing_witness :
  let r := Response 200 (lit "OK") REPORT_URL (Some (lit "application/vnd.ms-excel"))
             (Some (lit "attachment; filename=report.xls"))
             (Ok OLE2_MAGIC) (Raise (Exn JSONDecodeError [])) (λ _, None) in
  let w := World (λ _ _, Ok r) (λ _, 0%Q) (λ _, 0) (λ _, Ok tt) (λ _, []) in
  let st := State (Stats 0 0 0 0) (<[lit "report.html" := repeat Byte.x20 512]> ∅) [] in
  let req := report_request w default_crawler (JStr (lit "11")) (JStr (lit "Seoul"))
               (JStr (lit "1101")) (JStr (lit "Jongno")) in
  probed_paths (lit "report.xls")
  = [lit "report.xls"; lit "report.html"; lit "report.xls"; lit "report.xlsx"] ∧
  download_excel_for_location w default_crawler (JStr (lit "11")) (JStr (lit "Seoul"))
    (JStr (lit "1101")) (JStr (lit "Jongno")) st
  = (Ok true, State (Stats 0 0 1 0) (files st) [Requested req]).
Proof.
  intros r w st req. split.
  - apply (proj2 skip_first_existing (lit "report") (lit "xls")); [done| |done|].
    + apply (bool_decide_unpack _). vm_compute. exact I.
    + apply (bool_decide_unpack _). vm_compute. exact I.
  - exact (proj1 skip_first_existing w default_crawler (JStr (lit "11")) (JStr (lit "Seoul"))
             (JStr (lit "1101")) (JStr (lit "Jongno")) st r
             (State (stats st) (files st) [Requested req]) (lit "report.xls")
             eq_refl eq_refl).
Defined.

(** * Further properties *)

(** ** Cleaned text keeps the content *)

Section CleanContent.

Lemma content_lstrip s : content_chars (lstrip s) = content_chars s.
Proof.
  unfold content_chars. induction s as [|c s IH]; simpl; [done|].
  destruct (isspace c) eqn:Hc; [|done].
  rewrite filter_cons_False by congruence. exact IH.
Qed.

Lemma content_reverse s : content_chars (reverse s) = reverse (content_chars s).
Proof.
  unfold content_chars. induction s as [|c s IH]; [done|].
  rewrite reverse_cons, filter_app, IH.
  destruct (isspace c) eqn:Hc.
  - rewrite (filter_cons_False _ c []), filter_nil, app_nil_r by congruence.
    by rewrite filter_cons_False by congruence.
  - rewrite (filter_cons_True _ c []), filter_nil by done.
    by rewrite filter_cons_True, reverse_cons by done.
Qed.

Lemma content_strip s : content_chars (strip s) = content_chars s.
Proof.
  unfold strip, rstrip.
  by rewrite content_reverse, content_lstrip, content_reverse, reverse_involutive,
    content_lstrip.
Qed.

Lemma content_sub_ws s : ∀ b, content_chars (sub_ws_from b s) = content_chars s.
Proof.
  unfold content_chars. induction s as [|c s IH]; intros b; simpl; [done|].
  destruct (isspace c) eqn:Hc.
  - rewrite (filter_cons_False _ c s) by congruence.
    destruct b; [apply IH|]. rewrite filter_cons_False by done. apply IH.
  - rewrite !filter_cons_True by done. by rewrite IH.
Qed.

Lemma sub_ws_length s : ∀ b, (length (sub_ws_from b s) ≤ length s)%nat.
Proof.
  induction s as [|c s IH]; intros b; simpl; [done|].
  pose proof (IH true). pose proof (IH false).
  destruct (isspace c); [destruct b|]; simpl; lia.
Qed.

End CleanContent.

(** X1. Cleaning a text only touches whitespace: the characters that are not
    whitespace are kept, in their order, and the text never gets longer. *)
Theorem clean_text_keeps_content (s : str) :
  content_chars (_clean_text (Some s)) = content_chars s ∧
  (length (_clean_text (Some s)) ≤ length s)%nat.
Proof.
  rewrite clean_text_collapsed. unfold collapsed, re_sub_ws. split.
  - by rewrite content_sub_ws, content_strip.
  - etrans; [apply sub_ws_length | apply strip_length].
Qed.

(** ** Headers: normal form, conservation, failure *)

Section HeaderInvariants.

Lemma cell_text_clean c : _clean_text (Some (cell_text c)) = cell_text c.
Proof. unfold cell_text. rewrite !clean_text_collapsed. apply collapsed_idem. Qed.

Lemma slice_to_from {A} (k : Z) (s : list A) : slice_to k s ++ slice_from k s = s.
Proof. apply take_drop. Qed.

(** What one step of the first-row walk does to the loop state. *)
Lemma header_step_cases headers second_row c st' :
  header_step (headers, second_row) c = Ok st' →
  ∃ k,
    colspan c = Ok k ∧
    (keeps_label c = true ∧ st' = (headers ++ [cell_text c], second_row)
     ∨ keeps_label c = false
       ∧ st' = (headers ++ map cell_text (slice_to k second_row), slice_from k second_row)).
Proof.
  unfold header_step, keeps_label.
  destruct (colspan c) as [k|e]; [|done]. destruct (rowspan c) as [rows|e]; [|done].
  cbn [mbind result_bind]. intros Hstep. exists k. split; [done|].
  destruct (rows =? 2)%Z; [left; by injection Hstep as <-|].
  destruct (bool_decide (cell_text c = candidate_votes_label));
    [right | left]; by injection Hstep as <-.
Qed.

Lemma header_loop_clean first_row : ∀ headers second_row headers' second_row',
  header_loop (headers, second_row) first_row = Ok (headers', second_row') →
  Forall (λ h, _clean_text (Some h) = h) headers →
  Forall (λ h, _clean_text (Some h) = h) headers'.
Proof.
  induction first_row as [|c first_row IH]; intros headers second_row headers' second_row'.
  - cbn. by intros [= <- <-].
  - cbn [header_loop].
    destruct (header_step (headers, second_row) c) as [[hs rest]|e] eqn:Hstep; [|done].
    cbn [mbind result_bind]. intros Hloop Hclean.
    apply (IH _ _ _ _ Hloop).
    apply header_step_cases in Hstep as (k & _ & [[_ [= -> ->]] | [_ [= -> ->]]]).
    + apply Forall_app. split; [done|]. repeat constructor. apply cell_text_clean.
    + apply Forall_app. split; [done|]. apply Forall_forall.
      intros h (c' & -> & _)%list_elem_of_fmap. apply cell_text_clean.
Qed.

Lemma header_loop_conserves first_row : ∀ headers second_row headers' second_row',
  header_loop (headers, second_row) first_row = Ok (headers', second_row') →
  ∃ consumed,
    consumed ++ second_row' = second_row ∧
    ∃ added,
      headers' = headers ++ added ∧
      map cell_text consumed `sublist_of` added ∧
      length added
      = (length (filter (λ c, keeps_label c = true) first_row) + length consumed)%nat.
Proof.
  induction first_row as [|c first_row IH]; intros headers second_row headers' second_row'.
  - cbn. intros [= <- <-]. exists []. split; [done|]. exists [].
    by rewrite app_nil_r.
  - cbn [header_loop].
    destruct (header_step (headers, second_row) c) as [[hs rest]|e] eqn:Hstep; [|done].
    cbn [mbind result_bind]. intros Hloop.
    destruct (IH _ _ _ _ Hloop) as (consumed & Hrest & added & -> & Hsub & Hlen).
    apply header_step_cases in Hstep as (k & _ & [[Hkeep [= -> ->]] | [Hkeep [= -> ->]]]).
    + exists consumed. split; [done|]. exists (cell_text c :: added).
      split; [by rewrite <- app_assoc|]. split; [by apply sublist_cons|].
      rewrite filter_cons_True by done. cbn [length]. lia.
    + exists (slice_to k second_row ++ consumed). split.
      { by rewrite <- app_assoc, Hrest, slice_to_from. }
      exists (map cell_text (slice_to k second_row) ++ added).
      split; [by rewrite <- app_assoc|]. split.
      * rewrite map_app. by apply sublist_app.
      * rewrite filter_cons_False by congruence.
        rewrite !length_app, length_map. lia.
Qed.

Lemma header_loop_parses first_row : ∀ st,
  (∃ st', header_loop st first_row = Ok st') ↔ Forall spans_parse first_row.
Proof.
  induction first_row as [|c first_row IH]; intros [headers second_row].
  - split; [constructor | by eexists].
  - cbn [header_loop]. split.
    + intros [st' Hloop].
      destruct (header_step (headers, second_row) c) as [st1|e] eqn:Hstep; [|done].
      constructor; [|apply (IH st1); by exists st'].
      unfold header_step in Hstep. unfold spans_parse.
      destruct (colspan c); [|done]. destruct (rowspan c); [|done]. eauto.
    + intros Hall. apply Forall_cons in Hall as [[[k Hk] [rows Hrows]] Hall].
      unfold header_step. rewrite Hk, Hrows. cbn [mbind result_bind].
      destruct (rows =? 2)%Z; [by apply IH|].
      destruct (bool_decide _); by apply IH.
Qed.

End HeaderInvariants.

(** X2. Every header [_extract_headers] returns is cleaned text: cleaning
    it again leaves it as it is. *)
Theorem extract_headers_clean t headers :
  _extract_headers t = Ok headers →
  Forall (λ h, _clean_text (Some h) = h) headers.
Proof.
  unfold _extract_headers.
  destruct (header_rows t) as [|first_row [|second_row more]]; [done| |].
  - intros [= <-]. apply Forall_forall.
    intros h (c & -> & _)%list_elem_of_fmap. apply cell_text_clean.
  - unfold two_row_headers.
    destruct (header_loop ([], second_row) first_row) as [[hs rest]|e] eqn:Hloop; [|done].
    cbn [mbind result_bind]. intros [= <-]. apply Forall_app. split.
    + by apply (header_loop_clean _ _ _ _ _ Hloop).
    + apply Forall_forall. intros h (c & -> & _)%list_elem_of_fmap. apply cell_text_clean.
Qed.

Lemma extract_headers_clean_witness :
  let A := Cell ([0x20; 0x0a] ++ lit "Region" ++ [0x09; 0x20] ++ lit "name ") (Ok 1%Z) (Ok 1%Z) in
  _extract_headers (Table None None [[A]]) = Ok [lit "Region name"] ∧
  _clean_text (Some (lit "Region name")) = lit "Region name".
Proof.
  intros A. split; [reflexivity|].
  pose proof (extract_headers_clean (Table None None [[A]]) [lit "Region name"] eq_refl) as H.
  by apply Forall_cons in H as [H _].
Defined.

(** X3. With two header rows no second-row cell is lost or repeated,
    whatever the column spans are (even negative): the second-row labels
    occur, in order, among the returned headers, and the number of headers is
    the number of second-row cells plus the number of first-row cells that
    keep their own label. *)
Theorem extract_headers_conserves_second_row t first_row second_row more headers :
  header_rows t = first_row :: second_row :: more →
  _extract_headers t = Ok headers →
  map cell_text second_row `sublist_of` headers ∧
  length headers
  = (length (filter (λ c, keeps_label c = true) first_row) + length second_row)%nat.
Proof.
  intros Hrows. unfold _extract_headers, two_row_headers. rewrite Hrows.
  destruct (header_loop ([], second_row) first_row) as [[hs rest]|e] eqn:Hloop; [|done].
  cbn [mbind result_bind]. intros [= <-].
  apply header_loop_conserves in Hloop as (consumed & <- & added & -> & Hsub & Hlen).
  cbn [app]. split.
  - rewrite map_app. apply sublist_app; [done | reflexivity].
  - rewrite !length_app, length_map. lia.
Qed.

Lemma extract_headers_conserves_second_row_witness :
  let A := Cell (lit "region") (Ok 1%Z) (Ok 2%Z) in
  let B := Cell candidate_votes_label (Ok (-1)%Z) (Ok 1%Z) in
  let C := Cell (lit "kim") (Ok 1%Z) (Ok 1%Z) in
  let D := Cell (lit "lee") (Ok 1%Z) (Ok 1%Z) in
  let t := Table (Some [[A; B]; [C; D]]) None [] in
  _extract_headers t = Ok [lit "region"; lit "kim"; lit "lee"] ∧
  [lit "kim"; lit "lee"] `sublist_of` [lit "region"; lit "kim"; lit "lee"] ∧
  length [lit "region"; lit "kim"; lit "lee"] = 3%nat.
Proof.
  intros A B C D t. split; [reflexivity|].
  exact (extract_headers_conserves_second_row t [A; B] [C; D] []
           [lit "region"; lit "kim"; lit "lee"] eq_refl eq_refl).
Defined.

(** X4. [_extract_headers] reads the span attributes only when there are two
    header rows, and then fails exactly when a first-row cell has a span that
    is not an integer; one header row gives its cleaned cell texts, and no
    header row raises [IndexError]. *)
Theorem extract_headers_outcome t :
  match header_rows t with
  | first_row :: second_row :: _ =>
      (∃ headers, _extract_headers t = Ok headers) ↔ Forall spans_parse first_row
  | [header_cells] => _extract_headers t = Ok (map cell_text header_cells)
  | [] => ∃ msg, _extract_headers t = Raise (Exn IndexError msg)
  end.
Proof.
  unfold _extract_headers.
  destruct (header_rows t) as [|first_row [|second_row more]]; [by eexists|done|].
  unfold two_row_headers. rewrite <- (header_loop_parses first_row ([], second_row)).
  split.
  - intros [headers Hok].
    destruct (header_loop ([], second_row) first_row) as [st'|e]; [by exists st' | done].
  - intros [[hs rest] ->]. by eexists.
Qed.

Lemma extract_headers_outcome_witness :
  let bad := Cell (lit "votes") (Raise (Exn ValueError (lit "invalid literal for int()"))) (Ok 1%Z) in
  let ok := Cell (lit "name") (Ok 1%Z) (Ok 2%Z) in
  (∃ headers, _extract_headers (Table (Some [[ok]; []]) None []) = Ok headers) ∧
  ¬ (∃ headers, _extract_headers (Table (Some [[ok; bad]; []]) None []) = Ok headers).
Proof.
  intros bad ok. split.
  - apply (extract_headers_outcome (Table (Some [[ok]; []]) None [])).
    repeat constructor; by eexists.
  - intros H. apply (extract_headers_outcome (Table (Some [[ok; bad]; []]) None [])) in H.
    apply Forall_cons in H as [_ H]. apply Forall_cons in H as [[[k Hk] _] _].
    discriminate Hk.
Defined.

(** ** Records: keys and values *)

Section RecordInvariants.

Variable headers : list str.

Lemma map_cells_keys cells : ∀ i (m : gmap str str) key,
  is_Some (map_cells headers i cells m !! key)
  ↔ is_Some (m !! key) ∨ ∃ j, (j < length cells)%nat ∧ cell_key headers (i + j) = key.
Proof.
  induction cells as [|c cells IH]; intros i m key; cbn [map_cells length].
  - split; [by left | intros [H|(j & Hj & _)]; [done | lia]].
  - rewrite IH. rewrite lookup_insert_is_Some'. split.
    + intros [[Hkey|Hm]|(j & Hj & Hkey)].
      * right. exists 0%nat. split; [lia | by rewrite Nat.add_0_r].
      * by left.
      * right. exists (S j). split; [lia | by rewrite <- Nat.add_succ_comm].
    + intros [Hm|(j & Hj & Hkey)]; [left; by right|].
      destruct j as [|j].
      * left. left. by rewrite Nat.add_0_r in Hkey.
      * right. exists j. split; [lia | by rewrite Nat.add_succ_comm].
Qed.

Lemma map_cells_values (P : str → Prop) cells : ∀ i (m : gmap str str),
  map_Forall (λ _, P) m → (∀ c, P (cell_text c)) →
  map_Forall (λ _, P) (map_cells headers i cells m).
Proof.
  induction cells as [|c cells IH]; intros i m Hm HP; cbn [map_cells]; [done|].
  apply IH; [|done]. by apply map_Forall_insert_2.
Qed.

Lemma fill_missing_values (P : str → Prop) hs : ∀ (m : gmap str str),
  map_Forall (λ _, P) m → P [] → map_Forall (λ _, P) (fill_missing hs m).
Proof.
  induction hs as [|h hs IH]; intros m Hm HP; cbn [fill_missing]; [done|].
  apply IH; [|done]. destruct (m !! h); [done|]. by apply map_Forall_insert_2.
Qed.

End RecordInvariants.

(** X5. The keys of a record are exactly the headers and the synthetic keys
    [Extra_Column_i] of the cells beyond the header count. *)
Theorem row_record_keys headers cells key :
  is_Some (row_record headers cells !! key)
  ↔ key ∈ headers
    ∨ ∃ i, (length headers ≤ i < length cells)%nat
           ∧ key = lit "Extra_Column_" ++ str_of_nat i.
Proof.
  unfold row_record. split.
  - intros [v Hv].
    destruct (map_cells headers 0 cells ∅ !! key) as [v'|] eqn:Hcells.
    + assert (is_Some (map_cells headers 0 cells ∅ !! key)) as Hsome by eauto.
      apply map_cells_keys in Hsome as [[? Hempty]|(j & Hj & Hkey)].
      { by rewrite lookup_empty in Hempty. }
      cbn in Hkey. destruct (headers !! j) as [h|] eqn:Hh.
      * left. rewrite (cell_key_header headers j h Hh) in Hkey. subst.
        by apply list_elem_of_lookup_2 in Hh.
      * right. apply lookup_ge_None_1 in Hh. exists j. split; [lia|].
        by rewrite cell_key_extra in Hkey.
    + left. rewrite fill_missing_absent in Hv by done.
      by destruct (decide (key ∈ headers)); [|rewrite bool_decide_eq_false_2 in Hv].
  - intros [Hin|(i & Hi & ->)]; [by apply row_record_header_key|].
    assert (is_Some (map_cells headers 0 cells ∅ !! (lit "Extra_Column_" ++ str_of_nat i)))
      as [v Hv].
    { apply map_cells_keys. right. exists i. split; [lia|].
      cbn. apply cell_key_extra. lia. }
    exists v. by apply fill_missing_present.
Qed.

(** X6. Every value of a record is cleaned text (or empty): cleaning it
    again leaves it as it is. *)
Theorem row_record_values_clean headers cells key v :
  row_record headers cells !! key = Some v → _clean_text (Some v) = v.
Proof.
  intros Hv. unfold row_record in Hv.
  eapply (fill_missing_values (λ v, _clean_text (Some v) = v)); [| |exact Hv].
  - apply map_cells_values; [apply map_Forall_empty | apply cell_text_clean].
  - done.
Qed.

Lemma row_record_values_clean_witness :
  let cells := [Cell ([0x20] ++ lit "1,234" ++ [0x0a]) (Ok 1%Z) (Ok 1%Z)] in
  row_record [lit "votes"] cells !! lit "votes" = Some (lit "1,234") ∧
  _clean_text (Some (lit "1,234")) = lit "1,234".
Proof.
  intros cells. split; [reflexivity|].
  exact (row_record_values_clean [lit "votes"] cells (lit "votes") (lit "1,234") eq_refl).
Defined.

(** X7. A document without the data table parses to no records and no
    error.  Otherwise every record returned by the parse has every extracted
    header as a key, there is one record per data row that has cells, in
    document order, and a failure can only come from reading the headers. *)
Theorem parse_document_records doc :
  match from_option Some (table_by_class doc) (table_by_id doc) with
  | None => parse_document doc = Ok []
  | Some t =>
      match _extract_headers t with
      | Raise e => parse_document doc = Raise e
      | Ok headers =>
          ∃ records,
            parse_document doc = Ok records ∧
            records = map (row_record headers) (filter (λ cells, cells ≠ []) (data_rows t)) ∧
            Forall (λ record, ∀ h, h ∈ headers → is_Some (record !! h)) records
      end
  end.
Proof.
  unfold parse_document.
  destruct (from_option Some (table_by_class doc) (table_by_id doc)) as [t|]; [|done].
  destruct (_extract_headers t) as [headers|e]; [|done].
  cbn [mbind result_bind mret result_ret].
  assert (_extract_data_rows t headers
          = map (row_record headers) (filter (λ cells, cells ≠ []) (data_rows t))) as ->.
  { unfold _extract_data_rows.
    induction (data_rows t) as [|cells rows IH]; [done|].
    destruct cells as [|c cells].
    - rewrite filter_cons_False by (intros Hne; by apply Hne). exact IH.
    - rewrite filter_cons_True by done. rewrite map_cons, <- IH. done. }
  eexists. split; [done|]. split; [done|].
  apply Forall_forall. intros record (cells & -> & _)%list_elem_of_fmap h Hh.
  by apply row_record_header_key.
Qed.

(** ** CSV columns and rows *)

Section CsvOrder.

Lemma str_leb_total a : ∀ b, str_leb a b = true ∨ str_leb b a = true.
Proof.
  induction a as [|x a IH]; intros [|y b]; simpl; auto.
  destruct (N.ltb_spec x y), (N.ltb_spec y x); auto; lia.
Qed.

Lemma str_leb_trans a : ∀ b c, str_leb a b = true → str_leb b c = true → str_leb a c = true.
Proof.
  induction a as [|x a IH]; intros [|y b] [|z c]; simpl; try done.
  destruct (N.ltb_spec x y), (N.ltb_spec y x), (N.ltb_spec y z), (N.ltb_spec z y),
    (N.ltb_spec x z), (N.ltb_spec z x); try done; try lia.
  apply IH.
Qed.

Lemma str_leb_antisym a : ∀ b, str_leb a b = true → str_leb b a = true → a = b.
Proof.
  induction a as [|x a IH]; intros [|y b]; simpl; try done.
  destruct (N.ltb_spec x y), (N.ltb_spec y x); try done; try lia.
  intros Hab Hba. f_equal; [lia | by apply IH].
Qed.

#[global] Instance str_le_total : Total str_le.
Proof. intros a b. apply str_leb_total. Qed.

#[global] Instance str_le_trans : Transitive str_le.
Proof. intros a b c. apply str_leb_trans. Qed.

#[global] Instance str_le_antisym : AntiSymm (=) str_le.
Proof. intros a b. apply str_leb_antisym. Qed.

Lemma csv_fieldnames_elem_of data_rows key :
  key ∈ csv_fieldnames data_rows ↔ ∃ row, row ∈ data_rows ∧ is_Some (row !! key).
Proof.
  unfold csv_fieldnames. rewrite merge_sort_Permutation, elem_of_elements.
  rewrite elem_of_union_list. split.
  - intros (X & (row & -> & Hrow)%list_elem_of_fmap & Hkey).
    exists row. split; [done|]. by apply elem_of_dom.
  - intros (row & Hrow & Hkey). exists (dom row). split.
    + apply list_elem_of_fmap. by exists row.
    + by apply elem_of_dom.
Qed.












End CsvOrder.

(** X8. The columns [save_to_csv] writes are the keys that occur in any
    record, each once, in ascending code-point order; they are the only
    sorted duplicate-free listing of those keys. *)
Theorem csv_fieldnames_sorted_keys data_rows :
  Sorted str_le (csv_fieldnames data_rows) ∧
  NoDup (csv_fieldnames data_rows) ∧
  (∀ key, key ∈ csv_fieldnames data_rows
          ↔ ∃ row, row ∈ data_rows ∧ is_Some (row !! key)) ∧
  (∀ columns,
      Sorted str_le columns → NoDup columns →
      (∀ key, key ∈ columns ↔ ∃ row, row ∈ data_rows ∧ is_Some (row !! key)) →
      columns = csv_fieldnames data_rows).
Proof.
  assert (Hnodup : NoDup (csv_fieldnames data_rows)).
  { unfold csv_fieldnames. rewrite merge_sort_Permutation. apply NoDup_elements. }
  split; [apply (Sorted_merge_sort str_le)|]. split; [done|].
  split; [apply csv_fieldnames_elem_of|].
  intros columns Hsorted Hnd Hkeys.
  apply (Sorted_unique str_le); [done | apply (Sorted_merge_sort str_le) |].
  apply NoDup_Permutation; [done..|].
  intros key. by rewrite Hkeys, csv_fieldnames_elem_of.
Qed.

Lemma csv_fieldnames_sorted_keys_witness :
  let rows : list (gmap str str) :=
    [<[lit "b" := lit "1"]> (<[lit "a" := lit "2"]> ∅); <[lit "Extra_Column_2" := lit "3"]> ∅] in
  csv_fieldnames rows = [lit "Extra_Column_2"; lit "a"; lit "b"].
Proof.
  intros rows. symmetry.
  apply (proj2 (proj2 (proj2 (csv_fieldnames_sorted_keys rows)))).
  - apply (bool_decide_unpack _). vm_compute. exact I.
  - apply (bool_decide_unpack _). vm_compute. exact I.
  - intros key. rewrite <- (proj1 (proj2 (proj2 (csv_fieldnames_sorted_keys rows)))).
    vm_compute csv_fieldnames. done.
Defined.



(** ** Parsing a directory *)

Section ParseAll.

Variable env : parser_env.




End ParseAll.


(** ** Location info from file names *)

Section LocationInfo.

Lemma split_char_plain sep s : sep ∉ s → split_char sep s = [s].
Proof.
  induction s as [|c s IH]; [done|].
  intros [Hne Hs]%not_elem_of_cons. cbn [split_char].
  destruct (N.eqb_spec c sep); [congruence|]. by rewrite IH.
Qed.

Lemma split_char_app sep a b :
  sep ∉ a → split_char sep (a ++ sep :: b) = a :: split_char sep b.
Proof.
  induction a as [|c a IH]; cbn [app split_char].
  - intros _. by rewrite N.eqb_refl.
  - intros [Hne Ha]%not_elem_of_cons.
    destruct (N.eqb_spec c sep); [congruence|]. by rewrite IH.
Qed.

Lemma stem_of_extension base ext :
  base ≠ [] → ext ≠ [] → 0x2e ∉ ext → stem (base ++ 0x2e :: ext) = base.
Proof.
  intros Hbase Hext Hdot. unfold stem. rewrite suffix_after_stem by done.
  by rewrite length_app, Nat.add_sub, take_app_length.
Qed.

Lemma uint_digits_no_underscore d : 0x5f ∉ uint_digits d.
Proof.
  induction d; cbn [uint_digits]; try apply not_elem_of_nil;
    (apply not_elem_of_cons; split; [done | assumption]).
Qed.

End LocationInfo.

(** X11. The parser recovers the location codes the crawler puts into its
    fallback file names: for codes without an underscore, the report saved
    as [election_report_{city}_{town}_{timestamp}.xls] (or [.html]) is
    converted to a CSV whose name yields the town code as [district] and,
    as [city], the city code or its name in [city_map]. *)
Theorem location_info_of_fallback_name w city_code town_code tick ext :
  0x5f ∉ city_code → 0x5f ∉ town_code →
  ext = lit "xls" ∨ ext = lit "html" →
  let html_file := fallback_name w (JStr city_code) (JStr town_code) tick ++ 0x2e :: ext in
  let csv_filename := stem html_file ++ lit ".csv" in
  _extract_location_info csv_filename
  = <[lit "city" := default city_code
                      (snd <$> find (λ kv, bool_decide (kv.1 = city_code)) city_map)]>
      (<[lit "district" := town_code]> ∅).
Proof.
  intros Hcity Htown Hext html_file csv_filename. subst html_file csv_filename.
  assert (Hfallback : fallback_name w (JStr city_code) (JStr town_code) tick ≠ []) by done.
  rewrite stem_of_extension; [|done|by destruct Hext as [-> | ->]|].
  2: { destruct Hext as [-> | ->]; apply (bool_decide_unpack _); vm_compute; exact I. }
  unfold _extract_location_info.
  rewrite (stem_of_extension _ (lit "csv")); [|done|done|].
  2: { apply (bool_decide_unpack _). vm_compute. exact I. }
  unfold fallback_name. cbn [py_str].
  change (lit "election_report_" ++ city_code ++ lit "_" ++ town_code ++ lit "_"
          ++ str_of_N (time_time w tick))
    with (lit "election" ++ 0x5f :: lit "report" ++ 0x5f :: city_code
          ++ 0x5f :: town_code ++ 0x5f :: str_of_N (time_time w tick)).
  rewrite split_char_app by (apply (bool_decide_unpack _); vm_compute; exact I).
  rewrite split_char_app by (apply (bool_decide_unpack _); vm_compute; exact I).
  rewrite !split_char_app by done.
  rewrite split_char_plain by apply uint_digits_no_underscore.
  reflexivity.
Qed.

Lemma location_info_of_fallback_name_witness :
  _extract_location_info (lit "election_report_1100_1101_1700000000.csv")
  = <[lit "city" := [0xc11c; 0xc6b8; 0xd2b9; 0xbcc4; 0xc2dc]]>
      (<[lit "district" := lit "1101"]> ∅).
Proof.
  refine (location_info_of_fallback_name
            (World (λ _ _, refused) (λ _, 0%Q) (λ _, 1700000000) (λ _, Ok tt) (λ _, []))
            (lit "1100") (lit "1101") 0 (lit "xls") _ _ (or_introl eq_refl)).
  - apply (bool_decide_unpack _). vm_compute. exact I.
  - apply (bool_decide_unpack _). vm_compute. exact I.
Defined.

(** ** Requests with retries: every course *)

Section RetryCourses.

Variable w : world.

Ltac run_attempt :=
  unfold try_except_st, session_call, sleep, uniform, lift, raise,
    retry_delay;
  unfold mbind, crawl_bind, mret, crawl_ret;
  cbn -[Z.pow Z.of_nat Qmult Qplus Qminus inject_Z RETRY_DELAY str_of_nat lit
        Nat.eqb Nat.sub isinstance].

(** An attempt whose request is answered with an acceptable status returns
    the response. *)
Lemma attempt_request_succeeds max_retries attempt req st r :
  let slept :=
    if (0 <? attempt)%nat
    then [Slept (retry_delay w attempt (length (trace st)))] else [] in
  session_request w (length (trace st ++ slept)) req = Ok r →
  http_error_msg r = None →
  attempt_request w max_retries attempt req st
  = (Ok (Some r), State (stats st) (files st) ((trace st ++ slept) ++ [Requested req])).
Proof.
  intros slept. subst slept. unfold attempt_request.
  destruct (0 <? attempt)%nat; run_attempt;
    rewrite ?app_nil_r; intros -> Hmsg; unfold raise_for_status; by rewrite Hmsg.
Qed.

(** An exception that is not a [RequestException] leaves the attempt as it
    is raised. *)
Lemma attempt_request_propagates max_retries attempt req st e :
  let slept :=
    if (0 <? attempt)%nat
    then [Slept (retry_delay w attempt (length (trace st)))] else [] in
  session_request w (length (trace st ++ slept)) req = Raise e →
  isinstance e [RequestException] = false →
  attempt_request w max_retries attempt req st
  = (Raise e, State (stats st) (files st) ((trace st ++ slept) ++ [Requested req])).
Proof.
  intros slept. subst slept. unfold attempt_request.
  destruct (0 <? attempt)%nat; run_attempt;
    rewrite ?app_nil_r; by intros -> ->.
Qed.

(** How an attempt ends, whatever the transport answers. *)
Lemma attempt_request_cases max_retries attempt req st :
  let slept :=
    if (0 <? attempt)%nat
    then [Slept (retry_delay w attempt (length (trace st)))] else [] in
  let st' := State (stats st) (files st) ((trace st ++ slept) ++ [Requested req]) in
  ∃ outcome,
    attempt_request w max_retries attempt req st = (outcome, st') ∧
    (outcome = Ok None → (attempt =? max_retries - 1)%nat = false).
Proof.
  intros slept st'. subst slept st'.
  destruct (session_request w
              (length (trace st ++ (if (0 <? attempt)%nat
                                    then [Slept (retry_delay w attempt (length (trace st)))]
                                    else []))) req) as [r|e] eqn:Hcall.
  - destruct (http_error_msg r) as [msg|] eqn:Hmsg.
    + rewrite attempt_request_fails by (rewrite Hcall; cbn; by rewrite Hmsg).
      eexists. split; [done|]. by destruct (attempt =? max_retries - 1)%nat.
    + rewrite (attempt_request_succeeds _ _ _ _ r) by done. eexists. by split.
  - destruct (isinstance e [RequestException]) eqn:He.
    + rewrite attempt_request_fails by (by rewrite Hcall).
      eexists. split; [done|]. by destruct (attempt =? max_retries - 1)%nat.
    + rewrite (attempt_request_propagates _ _ _ _ e) by done. eexists. by split.
Qed.

End RetryCourses.

(** X12. A request that is answered at the first attempt with a status
    outside 400 to 599 is returned after exactly one call and no sleep. *)
Theorem make_request_first_success w req st r :
  session_request w (length (trace st)) req = Ok r →
  http_error_msg r = None →
  _make_request_with_retry w req st
  = (Ok r, State (stats st) (files st) (trace st ++ [Requested req])).
Proof.
  intros Hcall Hmsg. unfold _make_request_with_retry, MAX_RETRIES.
  cbn [seq retry_loop]. unfold mbind at 1, crawl_bind at 1.
  rewrite (attempt_request_succeeds w 3 0 req st r);
    cbn [Nat.ltb Nat.leb]; rewrite ?app_nil_r; done.
Qed.

Lemma make_request_first_success_witness :
  let r := Response 200 (lit "OK") REPORT_URL None None (Ok []) (Ok JNull) (λ _, None) in
  let w := World (λ _ _, Ok r) (λ _, 0%Q) (λ _, 0) (λ _, Ok tt) (λ _, []) in
  let req := Request GET TOWN_CODE_URL [] [] false TIMEOUT in
  _make_request_with_retry w req initial_state
  = (Ok r, State (Stats 0 0 0 0) ∅ [Requested req]).
Proof.
  intros r w req. apply (make_request_first_success w req initial_state r); reflexivity.
Defined.

(** X13. An exception of the transport that is not a [RequestException] is
    not retried: it propagates after the first call, without any sleep. *)
Theorem make_request_no_retry_on_other_errors w req st e :
  session_request w (length (trace st)) req = Raise e →
  isinstance e [RequestException] = false →
  _make_request_with_retry w req st
  = (Raise e, State (stats st) (files st) (trace st ++ [Requested req])).
Proof.
  intros Hcall He. unfold _make_request_with_retry, MAX_RETRIES.
  cbn [seq retry_loop]. unfold mbind at 1, crawl_bind at 1.
  rewrite (attempt_request_propagates w 3 0 req st e);
    cbn [Nat.ltb Nat.leb]; rewrite ?app_nil_r; done.
Qed.

Lemma make_request_no_retry_on_other_errors_witness :
  let e := Exn ValueError (lit "Invalid URL") in
  let w := World (λ _ _, Raise e) (λ _, 0%Q) (λ _, 0) (λ _, Ok tt) (λ _, []) in
  let req := Request GET TOWN_CODE_URL [] [] false TIMEOUT in
  _make_request_with_retry w req initial_state
  = (Raise e, State (Stats 0 0 0 0) ∅ [Requested req]).
Proof.
  intros e w req. apply (make_request_no_retry_on_other_errors w req initial_state e); reflexivity.
Defined.

(** What a request with retries adds to the trace. *)
Lemma make_request_trace w req st :
  ∃ events,
    events ∈ retry_courses w req (length (trace st)) ∧
    trace (_make_request_with_retry w req st).2 = trace st ++ events.
Proof.
  unfold _make_request_with_retry, MAX_RETRIES, retry_courses.
  cbn [seq retry_loop]. unfold mbind at 1, crawl_bind at 1.
  destruct (attempt_request_cases w 3 0 req st) as (o0 & -> & H0).
  cbn [Nat.ltb Nat.leb] in *. rewrite app_nil_r.
  destruct o0 as [[r|]|e].
  1, 3: eexists; split; [apply list_elem_of_here | done].
  unfold mbind at 1, crawl_bind at 1.
  destruct (attempt_request_cases w 3 1 req
              (State (stats st) (files st) (trace st ++ [Requested req])))
    as (o1 & -> & H1).
  cbn [Nat.ltb Nat.leb trace stats files] in *.
  rewrite !length_app. cbn [length].
  destruct o1 as [[r|]|e].
  1, 3: eexists; split; [apply list_elem_of_further, list_elem_of_here
                         | by rewrite <- !app_assoc].
  unfold mbind at 1, crawl_bind at 1.
  destruct (attempt_request_cases w 3 2 req
              (State (stats st) (files st)
                 ((trace st ++ [Requested req])
                  ++ [Slept (retry_delay w 1 (length (trace st) + 1))] ++ [Requested req])))
    as (o2 & Hrun & H2).
  cbn [Nat.ltb Nat.leb trace stats files] in *.
  rewrite <- !app_assoc in *. cbn [app] in *. rewrite Hrun. clear Hrun.
  rewrite !length_app. cbn [length].
  destruct o2 as [[r|]|e]; [| by discriminate (H2 eq_refl) |].
  all: eexists; split;
    [do 2 apply list_elem_of_further; apply list_elem_of_here|];
    cbn [snd trace]; do 6 f_equal; lia.
Qed.

(** X14. Whatever the transport does, a request with retries changes
    neither statistics nor files, and what it adds to the trace is one of
    three courses: one call; a call, a sleep and a call; or three calls with
    a sleep before the second and the third.  So it never makes more than
    three calls, never sleeps more than twice, never sleeps before the first
    call or after the last. *)
Theorem make_request_courses w req st :
  let st' := (_make_request_with_retry w req st).2 in
  stats st' = stats st ∧ files st' = files st ∧
  ∃ events, events ∈ retry_courses w req (length (trace st)) ∧ trace st' = trace st ++ events.
Proof.
  intros st'. subst st'.
  destruct (frames_make_request w req st) as [Hstats Hfiles].
  split; [done|]. split; [done|]. apply make_request_trace.
Qed.

(** ** Downloads keep what is already there *)

Section KeepFiles.

Variable w : world.
Variable self : crawler.

Lemma files_kept_refl fs : files_kept fs fs.
Proof. by intros path file. Qed.

Lemma keeps_files_frames {A} (c : crawl A) : frames c → keeps_files c.
Proof.
  intros Hc st. destruct (Hc st) as [_ ->]. split; [apply files_kept_refl | done].
Qed.

Lemma keeps_files_bind {A B} (c : crawl A) (f : A → crawl B) :
  keeps_files c → (∀ a, keeps_files (f a)) → keeps_files (c ≫= f).
Proof.
  intros Hc Hf st. unfold mbind, crawl_bind.
  destruct (Hc st) as [Hkept Hdom]. destruct (c st) as [[a|e] st1]; cbn in *; [|done].
  destruct (Hf a st1) as [Hkept' Hdom']. split.
  - intros path file Hfile Hlen. apply Hkept'; [by apply Hkept | done].
  - intros path Hpath. by apply Hdom', Hdom.
Qed.

Lemma keeps_files_try {A} (c : crawl A) classes (h : exn → crawl A) :
  keeps_files c → (∀ e, keeps_files (h e)) → keeps_files (try_except_st c classes h).
Proof.
  intros Hc Hh st. unfold try_except_st.
  destruct (Hc st) as [Hkept Hdom]. destruct (c st) as [[a|e] st1]; cbn in *; [done|].
  destruct (isinstance e classes); [|done].
  destruct (Hh e st1) as [Hkept' Hdom']. split.
  - intros path file Hfile Hlen. apply Hkept'; [by apply Hkept | done].
  - intros path Hpath. by apply Hdom', Hdom.
Qed.

Lemma file_exists_valid_target fs filename file :
  fs !! filename = Some file → (512 ≤ length file)%nat →
  _file_exists_and_valid fs filename = true.
Proof.
  intros Hfile Hlen. unfold _file_exists_and_valid, _validate_file_size. rewrite Hfile.
  by destruct (Nat.ltb_spec (length file) 512); [lia|].
Qed.

Lemma download_outcome_keeps st1 r filename :
  files_kept (files st1) (files (download_outcome w st1 r filename).2) ∧
  ∀ path, is_Some (files st1 !! path)
          → is_Some (files (download_outcome w st1 r filename).2 !! path).
Proof.
  assert (Hinsert : ∀ name content,
             _file_exists_and_valid (files st1) name = false →
             files_kept (files st1) (<[name := content]> (files st1))).
  { intros name content Hinvalid path file Hfile Hlen.
    rewrite lookup_insert_ne; [done|]. intros ->.
    by rewrite (file_exists_valid_target _ _ _ Hfile Hlen) in Hinvalid. }
  assert (Hdom : ∀ name content path,
             is_Some (files st1 !! path)
             → is_Some (<[name := content]> (files st1) !! path)).
  { intros name content path Hpath. apply lookup_insert_is_Some'. by right. }
  pose proof (files_kept_refl (files st1)) as Hrefl.
  unfold download_outcome. destruct filename as [filename|e]; [|by split].
  destruct (_file_exists_and_valid (files st1) filename) eqn:Hvalid; [by split|].
  destruct (open_wb w filename) as [[]|e]; [|by split].
  destruct (stream_error r) as [e|]; [split; cbn; auto|].
  destruct (length (received r) <? 512)%nat; split; cbn; auto.
Qed.

Lemma keeps_files_download city_code city_name town_code town_name :
  keeps_files (download_excel_for_location w self city_code city_name town_code town_name).
Proof.
  intros st. rewrite download_stages.
  destruct (frames_make_request w
              (Request POST REPORT_URL []
                 (report_payload w self city_code city_name town_code town_name)
                 true TIMEOUT) st) as [_ Hfiles].
  destruct (_make_request_with_retry w _ st) as [[r|e] st1]; cbn [snd] in *.
  2: { cbn. rewrite Hfiles. split; [apply files_kept_refl | done]. }
  pose proof (download_outcome_keeps st1 r
                (_get_filename_from_response w r city_code town_code st1).1) as Hkeep.
  destruct (download_outcome w st1 r _) as [b st2]. cbn [snd] in *.
  by rewrite Hfiles in Hkeep.
Qed.

Lemma keeps_files_town_codes city_code :
  keeps_files (get_town_codes_for_city w self city_code).
Proof.
  apply keeps_files_frames. unfold get_town_codes_for_city.
  apply frames_try; [|intros; apply frames_ret].
  apply frames_bind; [apply frames_make_request | intros; apply frames_lift].
Qed.

Lemma keeps_files_crawl_towns city town_codes :
  keeps_files (crawl_towns w self city town_codes).
Proof.
  induction town_codes as [|town town_codes IH]; cbn [crawl_towns].
  - apply keeps_files_frames, frames_ret.
  - apply keeps_files_bind; [apply keeps_files_download|]. intros _.
    apply keeps_files_bind; [apply keeps_files_frames, frames_uniform|]. intros jitter.
    apply keeps_files_bind; [apply keeps_files_frames, frames_sleep | done].
Qed.

Lemma keeps_files_crawl_cities city_codes : ∀ i n,
  keeps_files (crawl_cities w self i n city_codes).
Proof.
  induction city_codes as [|city city_codes IH]; intros i n; cbn [crawl_cities].
  - apply keeps_files_frames, frames_ret.
  - apply keeps_files_bind; [apply keeps_files_town_codes|]. intros town_codes.
    apply keeps_files_bind; [|intros; apply IH].
    destruct town_codes as [|town town_codes]; [apply keeps_files_frames, frames_ret|].
    apply keeps_files_bind; [apply keeps_files_crawl_towns|]. intros _.
    destruct (i <? n)%nat; apply keeps_files_frames; [apply frames_sleep | apply frames_ret].
Qed.

Lemma keeps_files_crawl_all : keeps_files (crawl_all_locations w self).
Proof.
  unfold crawl_all_locations. apply keeps_files_try.
  - apply keeps_files_bind.
    + apply keeps_files_frames. unfold get_city_town_codes. apply frames_try.
      * apply frames_bind; [apply frames_make_request | intros; apply frames_ret].
      * intros; apply frames_raise.
    + intros [city_codes towns]. apply keeps_files_crawl_cities.
  - intros e. apply keeps_files_frames, frames_raise.
Qed.

(** Every download is counted once. *)
Lemma download_counted city_code city_name town_code town_name st :
  ∃ b st',
    download_excel_for_location w self city_code city_name town_code town_name st
    = (Ok b, st') ∧
    tasks_counted (stats st') = tasks_counted (stats st) + 1.
Proof.
  rewrite download_stages.
  destruct (frames_make_request w
              (Request POST REPORT_URL []
                 (report_payload w self city_code city_name town_code town_name)
                 true TIMEOUT) st) as [Hstats _].
  destruct (_make_request_with_retry w _ st) as [[r|e] st1]; cbn [snd] in Hstats.
  2: { eexists _, _. split; [done|]. unfold tasks_counted. cbn. rewrite Hstats. lia. }
  unfold download_outcome, tasks_counted.
  destruct ((_get_filename_from_response w r city_code town_code st1).1) as [filename|e].
  2: { eexists _, _. split; [done|]. cbn. rewrite Hstats. lia. }
  destruct (_file_exists_and_valid (files st1) filename).
  { eexists _, _. split; [done|]. cbn. rewrite Hstats. lia. }
  destruct (open_wb w filename) as [[]|e].
  2: { eexists _, _. split; [done|]. cbn. rewrite Hstats. lia. }
  destruct (stream_error r) as [e|].
  { eexists _, _. split; [done|]. cbn. rewrite Hstats. lia. }
  destruct (length (received r) <? 512)%nat;
    eexists _, _; (split; [done|]); cbn; rewrite Hstats; lia.
Qed.

End KeepFiles.

(** X15. A download never removes a file of the download directory, and
    never overwrites one of at least 512 bytes: whatever the server answers
    and whatever the download returns, a file that was there is still there,
    with the same content when it has 512 bytes or more. *)
Theorem download_keeps_valid_files w self city_code city_name town_code town_name st path file :
  files st !! path = Some file →
  let st' := (download_excel_for_location w self city_code city_name town_code town_name st).2 in
  is_Some (files st' !! path) ∧
  ((512 ≤ length file)%nat → files st' !! path = Some file).
Proof.
  intros Hfile st'.
  destruct (keeps_files_download w self city_code city_name town_code town_name st)
    as [Hkept Hdom].
  split; [by apply Hdom | by apply Hkept].
Qed.

Lemma download_keeps_valid_files_witness :
  let r := Response 200 (lit "OK") REPORT_URL (Some (lit "application/vnd.ms-excel"))
             (Some (lit "attachment; filename=report.xls"))
             (Ok (repeat Byte.x41 600)) (Raise (Exn JSONDecodeError [])) (λ _, None) in
  let w := World (λ _ _, Ok r) (λ _, 0%Q) (λ _, 0) (λ _, Ok tt) (λ _, []) in
  let st := State (Stats 0 0 0 0) (<[lit "old.xls" := repeat Byte.x20 512]> ∅) [] in
  let st' := (download_excel_for_location w default_crawler (JStr (lit "11"))
                (JStr (lit "Seoul")) (JStr (lit "1101")) (JStr (lit "Jongno")) st).2 in
  files st' !! lit "report.xls" = Some (repeat Byte.x41 600) ∧
  files st' !! lit "old.xls" = Some (repeat Byte.x20 512).
Proof.
  intros r w st st'. split; [by vm_compute|].
  refine (proj2 (download_keeps_valid_files w default_crawler (JStr (lit "11"))
                   (JStr (lit "Seoul")) (JStr (lit "1101")) (JStr (lit "Jongno")) st
                   (lit "old.xls") (repeat Byte.x20 512) _) _).
  - by vm_compute.
  - cbn. lia.
Defined.

(** X16. The same holds for a whole sequential run, whether it ends or
    raises: no file of the download directory disappears, and files of at
    least 512 bytes keep their content. *)
Theorem crawl_keeps_valid_files w self st path file :
  files st !! path = Some file →
  let st' := (crawl_all_locations w self st).2 in
  is_Some (files st' !! path) ∧
  ((512 ≤ length file)%nat → files st' !! path = Some file).
Proof.
  intros Hfile st'. destruct (keeps_files_crawl_all w self st) as [Hkept Hdom].
  split; [by apply Hdom | by apply Hkept].
Qed.

Lemma crawl_keeps_valid_files_witness :
  let st := State (Stats 0 0 0 0) (<[lit "old.xls" := repeat Byte.x20 512]> ∅) [] in
  files (crawl_all_locations offline_after_entry_page default_crawler st).2 !! lit "old.xls"
  = Some (repeat Byte.x20 512).
Proof.
  intros st.
  refine (proj2 (crawl_keeps_valid_files offline_after_entry_page default_crawler st
                   (lit "old.xls") (repeat Byte.x20 512) _) _).
  - by vm_compute.
  - cbn. lia.
Defined.

(** X17. The inner loop of the sequential crawl never raises and counts
    every sub-region exactly once: the sum of [downloaded], [skipped] and
    [errors] grows by the number of sub-regions. *)
Theorem crawl_towns_counts_each w self city town_codes : ∀ st,
  ∃ st',
    crawl_towns w self city town_codes st = (Ok tt, st') ∧
    tasks_counted (stats st')
    = tasks_counted (stats st) + N.of_nat (length town_codes).
Proof.
  induction town_codes as [|town town_codes IH]; intros st.
  - exists st. split; [done|]. cbn. lia.
  - cbn [crawl_towns]. unfold mbind at 1, crawl_bind at 1.
    destruct (download_counted w self (code city) (name city) (code town) (name town) st)
      as (b & st1 & -> & Hcount).
    unfold uniform, sleep. unfold mbind at 1 2, crawl_bind at 1 2. cbn [fst snd].
    destruct (IH (State (stats st1) (files st1)
                    (trace st1
                     ++ [Slept (BASE_DELAY
                                + (- (1 # 5) + ((1 # 5) - - (1 # 5))
                                               * random_random w (length (trace st1))))%Q])))
      as (st' & Hrun & Hcount').
    exists st'. split; [exact Hrun|].
    rewrite Hcount'. cbn [stats length]. rewrite Hcount. lia.
Qed.

(** ** Downloading twice, and what a download stores *)

Section DownloadAgain.

Variable w : world.
Variable self : crawler.

Lemma download_outcome_true_valid st1 r filename st' :
  download_outcome w st1 r (Ok filename) = (true, st') →
  _file_exists_and_valid (files st') filename = true.
Proof.
  unfold download_outcome.
  destruct (_file_exists_and_valid (files st1) filename) eqn:Hvalid.
  { intros [= <-]. exact Hvalid. }
  destruct (open_wb w filename) as [[]|e]; [|done].
  destruct (stream_error r) as [e|]; [done|].
  destruct (Nat.ltb_spec (length (received r)) 512); [done|].
  intros [= <-]. cbn [files].
  apply (file_exists_valid_target _ _ (received r)); [apply lookup_insert_eq | done].
Qed.

Lemma download_true_valid city_code city_name town_code town_name st r st1 filename st' :
  _make_request_with_retry w
    (report_request w self city_code city_name town_code town_name) st = (Ok r, st1) →
  (_get_filename_from_response w r city_code town_code st1).1 = Ok filename →
  download_excel_for_location w self city_code city_name town_code town_name st
  = (Ok true, st') →
  _file_exists_and_valid (files st') filename = true.
Proof.
  intros Hreq Hname. rewrite download_stages.
  unfold report_request in Hreq. rewrite Hreq, Hname.
  destruct (download_outcome w st1 r (Ok filename)) as [b st2] eqn:Hout.
  intros [= -> ->]. by eapply download_outcome_true_valid.
Qed.

End DownloadAgain.

(** X18. A download that returned [True] is not repeated: a task run next,
    on the state that download left, whose response resolves to the same
    file name is recorded as skipped, returns [True] and leaves the files as
    they are. *)
Theorem download_again_skips w self city_code city_name town_code town_name
    city_code' city_name' town_code' town_name' st r st1 filename st' r' st1' :
  _make_request_with_retry w
    (report_request w self city_code city_name town_code town_name) st = (Ok r, st1) →
  (_get_filename_from_response w r city_code town_code st1).1 = Ok filename →
  download_excel_for_location w self city_code city_name town_code town_name st
  = (Ok true, st') →
  _make_request_with_retry w
    (report_request w self city_code' city_name' town_code' town_name') st' = (Ok r', st1') →
  (_get_filename_from_response w r' city_code' town_code' st1').1 = Ok filename →
  download_excel_for_location w self city_code' city_name' town_code' town_name' st'
  = (Ok true, State (add_skipped (stats st')) (files st') (trace st1')).
Proof.
  intros Hreq Hname Htrue Hreq' Hname'.
  apply (download_skips w self _ _ _ _ st' r' st1' filename Hreq' Hname').
  exact (download_true_valid w self _ _ _ _ st r st1 filename st' Hreq Hname Htrue).
Qed.

Lemma download_again_skips_witness :
  let r := Response 200 (lit "OK") REPORT_URL (Some (lit "application/vnd.ms-excel"))
             (Some (lit "attachment; filename=report.xls"))
             (Ok (repeat Byte.x41 600)) (Raise (Exn JSONDecodeError [])) (λ _, None) in
  let w := World (λ _ _, Ok r) (λ _, 0%Q) (λ _, 0) (λ _, Ok tt) (λ _, []) in
  let download :=
    download_excel_for_location w default_crawler (JStr (lit "11")) (JStr (lit "Seoul"))
      (JStr (lit "1101")) (JStr (lit "Jongno")) in
  let req := report_request w default_crawler (JStr (lit "11")) (JStr (lit "Seoul"))
               (JStr (lit "1101")) (JStr (lit "Jongno")) in
  let st' := State (Stats 1 0 0 600) (<[lit "report.xls" := repeat Byte.x41 600]> ∅)
               [Requested req] in
  download initial_state = (Ok true, st') ∧
  download st' = (Ok true, State (Stats 1 0 1 600) (files st') [Requested req; Requested req]).
Proof.
  intros r w download req st'.
  assert (Hfirst : download initial_state = (Ok true, st')) by (by vm_compute).
  split; [exact Hfirst|].
  exact (download_again_skips w default_crawler (JStr (lit "11")) (JStr (lit "Seoul"))
           (JStr (lit "1101")) (JStr (lit "Jongno")) (JStr (lit "11")) (JStr (lit "Seoul"))
           (JStr (lit "1101")) (JStr (lit "Jongno")) initial_state r
           (State (Stats 0 0 0 0) ∅ [Requested req]) (lit "report.xls") st' r
           (State (stats st') (files st') [Requested req; Requested req])
           eq_refl eq_refl Hfirst eq_refl eq_refl).
Defined.

(** X19. When the skip check fails (no probed path exists, or the first
    that exists holds less than 512 bytes) and the target can be opened, the
    write loop stores under the resolved name every byte the response stream
    delivers.  When the stream ends normally, 512 bytes or more count as one
    download and add their number to [total_size], and fewer count as one
    error and return [False], the file being left on disk.  When the stream
    breaks, the bytes received before the break are left on disk, and the
    download counts as one error and returns [False]. *)
Theorem download_stores_body w self city_code city_name town_code town_name
    st r st1 filename :
  _make_request_with_retry w
    (report_request w self city_code city_name town_code town_name) st = (Ok r, st1) →
  (_get_filename_from_response w r city_code town_code st1).1 = Ok filename →
  _file_exists_and_valid (files st) filename = false →
  open_wb w filename = Ok tt →
  download_excel_for_location w self city_code city_name town_code town_name st
  = let stored := <[filename := received r]> (files st) in
    match stream_error r with
    | Some _ => (Ok false, State (add_error (stats st)) stored (trace st1))
    | None =>
        if (length (received r) <? 512)%nat
        then (Ok false, State (add_error (stats st)) stored (trace st1))
        else (Ok true,
              State (add_downloaded (N.of_nat (length (received r))) (stats st))
                stored (trace st1))
    end.
Proof.
  intros Hreq Hname Hvalid Hopen. rewrite download_stages.
  destruct (frames_make_request w
              (report_request w self city_code city_name town_code town_name) st)
    as [Hstats Hfiles].
  unfold report_request in *. rewrite Hreq in *. cbn [snd] in *.
  rewrite Hname. unfold download_outcome. rewrite Hfiles, Hvalid, Hopen, Hstats.
  cbv zeta. destruct (stream_error r) as [e|]; [done|].
  by destruct (length (received r) <? 512)%nat.
Qed.

Lemma download_stores_body_witness :
  let r := Streamed 200 (lit "OK") REPORT_URL (Some (lit "text/html"))
             (Some (lit "attachment; filename=report.xls"))
             (repeat Byte.x41 600) (Some (Exn ConnectionError (lit "Connection broken")))
             (Raise (Exn JSONDecodeError [])) (λ _, None) in
  let w := World (λ _ _, Ok r) (λ _, 0%Q) (λ _, 0) (λ _, Ok tt) (λ _, []) in
  let req := report_request w default_crawler (JStr (lit "11")) (JStr (lit "Seoul"))
               (JStr (lit "1101")) (JStr (lit "Jongno")) in
  download_excel_for_location w default_crawler (JStr (lit "11")) (JStr (lit "Seoul"))
    (JStr (lit "1101")) (JStr (lit "Jongno")) initial_state
  = (Ok false,
     State (Stats 0 1 0 0) (<[lit "report.html" := repeat Byte.x41 600]> ∅) [Requested req]).
Proof.
  intros r w req.
  exact (download_stores_body w default_crawler (JStr (lit "11")) (JStr (lit "Seoul"))
           (JStr (lit "1101")) (JStr (lit "Jongno")) initial_state r
           (State (Stats 0 0 0 0) ∅ [Requested req]) (lit "report.html")
           eq_refl eq_refl eq_refl eq_refl).
Defined.

(** ** The listings of regions and sub-regions *)

Section Listings.

Variable w : world.
Variable self : crawler.

Lemma startswith_app {A} `{EqDecision A} (prefix s : list A) :
  startswith (prefix ++ s) prefix = true.
Proof.
  induction prefix as [|c prefix IH]; [by destruct s|]. cbn [app startswith].
  rewrite bool_decide_eq_true_2 by done. exact IH.
Qed.

Lemma strip_strip s : strip (strip s) = strip s.
Proof. apply strip_id; [apply strip_head | apply strip_last]. Qed.

Lemma location_options_listed r id : Forall listed_location (location_options r id).
Proof.
  unfold location_options. destruct (selects r id) as [options|]; [|done].
  apply Forall_forall. intros l Hl.
  apply list_elem_of_omap in Hl as ([value text] & _ & Hl).
  destruct value as [[|c v]|]; [done| |done].
  destruct (decide (c :: v ≠ lit "-1")) as [Hne|Heq].
  - rewrite bool_decide_eq_true_2 in Hl by done. injection Hl as <-.
    exists (c :: v), (strip text). split; [done|]. split; [done|]. split; [done|].
    apply strip_strip.
  - by rewrite bool_decide_eq_false_2 in Hl.
Qed.

Lemma town_codes_of_filtered items : ∀ l,
  town_codes_of items = Ok l →
  Forall (λ loc, code loc ≠ JStr (lit "-1")) l ∧ (length l ≤ length items)%nat.
Proof.
  induction items as [|item items IH]; intros l; cbn [town_codes_of].
  { intros [= <-]. split; [done | cbn; lia]. }
  destruct (py_get item (lit "CODE")) as [c|e] eqn:Hget; cbn [mbind result_bind]; [|done].
  destruct (is_str (lit "-1") c) eqn:Hsentinel.
  { intros Hrest. destruct (IH l Hrest). split; [done | cbn; lia]. }
  destruct (py_getitem item (lit "CODE")) as [c'|e] eqn:Hitem; cbn [mbind result_bind]; [|done].
  destruct (py_getitem item (lit "NAME")) as [n|e]; cbn [mbind result_bind]; [|done].
  destruct (town_codes_of items) as [rest|e]; cbn [mbind result_bind]; [|done].
  intros [= <-]. destruct (IH rest eq_refl) as [Hrest Hlen].
  split; [|cbn; lia]. constructor; [|done]. cbn [code].
  intros ->. destruct item as [| | | | |members]; try done.
  cbn [py_get py_getitem] in Hget, Hitem.
  destruct (dict_lookup (lit "CODE") members) as [x|]; [|done].
  cbn [default] in Hget. injection Hget as <-. injection Hitem as ->.
  cbn [is_str] in Hsentinel. by rewrite bool_decide_eq_true_2 in Hsentinel.
Qed.

End Listings.

(** X20. The region listing either returns or raises the crawler's own
    error; it changes neither the statistics nor the files.  Every region
    and sub-region it returns has a non-empty code other than the
    placeholder -1 and a name without surrounding white space. *)
Theorem city_town_codes_outcome w st :
  let out := get_city_town_codes w st in
  stats out.2 = stats st ∧ files out.2 = files st ∧
  match out.1 with
  | Ok (city_codes, all_town_codes) =>
      Forall listed_location city_codes ∧ Forall listed_location all_town_codes
  | Raise e =>
      exn_cls e = ElectionCrawlerError ∧
      startswith (exn_str e) (lit "Failed to fetch city/town codes: ") = true
  end.
Proof.
  intros out. subst out. unfold get_city_town_codes, try_except_st.
  unfold mbind, crawl_bind.
  destruct (frames_make_request w (Request GET INIT_PAGE_URL [] [] false TIMEOUT) st)
    as [Hstats Hfiles].
  destruct (_make_request_with_retry w _ st) as [[r|e] st1]; cbn [fst snd] in *.
  - split; [done|]. split; [done|]. split; apply location_options_listed.
  - rewrite isinstance_Exception. unfold raise. cbn [fst snd exn_cls exn_str].
    split; [done|]. split; [done|]. split; [done|]. apply startswith_app.
Qed.

(** X21. The sub-region lookup never lists the placeholder: whatever the
    server answers, a returned list has no entry whose code is the string
    -1; and an error it lets through is neither a [RequestException] nor a
    [ValueError].  It changes neither the statistics nor the files. *)
Theorem town_codes_never_placeholder w self city_code st :
  let out := get_town_codes_for_city w self city_code st in
  stats out.2 = stats st ∧ files out.2 = files st ∧
  match out.1 with
  | Ok town_codes => Forall (λ town, code town ≠ JStr (lit "-1")) town_codes
  | Raise e => isinstance e [RequestException; ValueError] = false
  end.
Proof.
  intros out.
  assert (Hout : ∃ res st', out = (res, st') ∧ stats st' = stats st ∧ files st' = files st ∧
                            match res with
                            | Ok town_codes =>
                                Forall (λ town, code town ≠ JStr (lit "-1")) town_codes
                            | Raise e => isinstance e [RequestException; ValueError] = false
                            end).
  { subst out. unfold get_town_codes_for_city, try_except_st.
    unfold mbind at 1, crawl_bind at 1.
    destruct (frames_make_request w
                (Request GET TOWN_CODE_URL
                   [(lit "electionId", JStr (election_id self)); (lit "cityCode", city_code)]
                   [] false TIMEOUT) st) as [Hstats Hfiles].
    destruct (_make_request_with_retry w _ st) as [[r|e] st1]; cbn [fst snd] in *.
    2: { destruct (isinstance e _) eqn:He; eexists _, _; by repeat split. }
    unfold lift.
    destruct (json_body r) as [response_data|e]; cbn [mbind result_bind].
    2: { destruct (isinstance e _) eqn:He; eexists _, _; by repeat split. }
    destruct (town_data_of response_data) as [town_data|e]; cbn [mbind result_bind].
    2: { destruct (isinstance e _) eqn:He; eexists _, _; by repeat split. }
    destruct (py_iter town_data) as [items|e]; cbn [mbind result_bind].
    2: { destruct (isinstance e _) eqn:He; eexists _, _; by repeat split. }
    destruct (town_codes_of items) as [l|e] eqn:Hl.
    2: { destruct (isinstance e _) eqn:He; eexists _, _; by repeat split. }
    eexists _, _. split; [done|]. split; [done|]. split; [done|].
    by apply (town_codes_of_filtered items). }
  destruct Hout as (res & st' & -> & Hstats & Hfiles & Hres). done.
Qed.

(** X22. Once the request has succeeded, both accepted shapes of the
    body, the bare array and the array wrapped as [jsonResult.body], give
    the entries other than -1 in their order; and a body that cannot be
    decoded gives the empty list. *)
Theorem town_codes_lists_entries w self city_code st r st1 :
  _make_request_with_retry w (town_request self city_code) st = (Ok r, st1) →
  (∀ entries,
      json_body r = Ok (JArr (map town_entry entries))
      ∨ json_body r
        = Ok (JObj [(lit "jsonResult", JObj [(lit "body", JArr (map town_entry entries))])]) →
      get_town_codes_for_city w self city_code st = (Ok (towns_of_entries entries), st1)) ∧
  (∀ e,
      json_body r = Raise e →
      isinstance e [RequestException; ValueError] = true →
      get_town_codes_for_city w self city_code st = (Ok [], st1)).
Proof.
  intros Hreq. split.
  - intros entries. by apply town_codes_well_formed.
  - intros e. by apply town_codes_malformed_json.
Qed.

Lemma town_codes_lists_entries_witness :
  let body := JObj [(lit "jsonResult",
                     JObj [(lit "body",
                            JArr [town_entry (lit "-1", lit "all");
                                  town_entry (lit "1101", lit "Jongno");
                                  town_entry (lit "1102", lit "Jung")])])] in
  let r := Response 200 (lit "OK") TOWN_CODE_URL (Some (lit "application/json")) None
             (Ok []) (Ok body) (λ _, None) in
  let w := World (λ _ _, Ok r) (λ _, 0%Q) (λ _, 0) (λ _, Ok tt) (λ _, []) in
  (get_town_codes_for_city w default_crawler (JStr (lit "11")) initial_state).1
  = Ok [Location (JStr (lit "1101")) (JStr (lit "Jongno"));
        Location (JStr (lit "1102")) (JStr (lit "Jung"))].
Proof.
  intros body r w.
  rewrite (proj1 (town_codes_lists_entries w default_crawler (JStr (lit "11")) initial_state r
                    (State (Stats 0 0 0 0) ∅
                       [Requested (town_request default_crawler (JStr (lit "11")))])
                    eq_refl)
             [(lit "-1", lit "all"); (lit "1101", lit "Jongno"); (lit "1102", lit "Jung")]
             (or_intror eq_refl)).
  reflexivity.
Defined.

(** ** HTML markers in the body *)

Section Markers.

Lemma is_continuation_ge b : is_continuation b = true → 0x80 ≤ b.
Proof. unfold is_continuation. intros [H _]%andb_true_iff. by apply N.leb_le. Qed.

(** The bytes one decoding step covers after the first are continuation
    bytes. *)
Lemma utf8_next_covered s item n :
  utf8_next s = (item, n) → Forall (λ b, 0x80 ≤ b) (take (n - 1) (tail s)).
Proof.
  unfold utf8_next.
  destruct s as [|ch [|ch2 [|ch3 [|ch4 r]]]];
    repeat match goal with
           | |- context [is_continuation ?b] =>
               let H := fresh "Hcont" in
               destruct (is_continuation b) eqn:H; cbn [negb orb]
           | |- context [if ?c then _ else _] => destruct c
           end;
    intros [= <- <-]; cbn [tail take Nat.sub];
    repeat constructor; by apply is_continuation_ge.
Qed.

Lemma utf8_items_ascii a post :
  Forall (λ c, c < 0x80) a →
  utf8_items 0 (a ++ post) = map Scalar a ++ utf8_items 0 post.
Proof.
  induction 1 as [|c a Hc Ha IH]; [done|].
  cbn [app map utf8_items]. unfold utf8_next.
  rewrite (proj2 (N.ltb_lt _ _) Hc). cbn [Nat.sub]. by rewrite IH.
Qed.

(** ASCII text survives decoding whatever surrounds it. *)
Lemma utf8_items_infix a post pre : ∀ skip,
  Forall (λ c, c < 0x80) a →
  Forall (λ b, 0x80 ≤ b) (take skip (pre ++ a ++ post)) →
  ∃ front back, utf8_items skip (pre ++ a ++ post) = front ++ map Scalar a ++ back.
Proof.
  induction pre as [|p pre IH]; intros skip Ha Hskip.
  - destruct a as [|c a].
    { exists [], (utf8_items skip post). done. }
    destruct skip as [|k].
    + exists [], (utf8_items 0 post). exact (utf8_items_ascii (c :: a) post Ha).
    + cbn [app take] in Hskip. apply Forall_cons in Hskip as [Hge _].
      apply Forall_cons in Ha as [Hlt _]. lia.
  - cbn [app utf8_items]. destruct skip as [|k].
    + destruct (utf8_next (p :: pre ++ a ++ post)) as [item n] eqn:Hnext.
      apply utf8_next_covered in Hnext. cbn [tail] in Hnext.
      destruct (IH (n - 1)%nat Ha Hnext) as (front & back & ->).
      by exists (item :: front), back.
    + cbn [app take] in Hskip. apply Forall_cons in Hskip as [_ Hskip].
      by apply IH.
Qed.

Lemma omap_scalars a : omap scalar_of (map Scalar a) = a.
Proof. induction a as [|c a IH]; [done|]. cbn. by rewrite IH. Qed.

Lemma lower_app s t : lower (s ++ t) = lower s ++ lower t.
Proof. unfold lower. by rewrite map_app, concat_app. Qed.

Lemma contains_startswith needle hay :
  startswith hay needle = true → contains needle hay = true.
Proof. intros H. destruct hay; cbn [contains]; by rewrite H. Qed.

Lemma contains_infix needle front back :
  contains needle (front ++ needle ++ back) = true.
Proof.
  induction front as [|c front IH].
  - rewrite app_nil_l. apply contains_startswith, startswith_app.
  - cbn [app contains]. rewrite IH. apply orb_true_r.
Qed.

(** Text made of byte values whose lower case is ASCII is ASCII. *)
Lemma lower_ascii_inv s :
  Forall (λ c, c < 256) s → Forall (λ c, c < 0x80) (lower s) → Forall (λ c, c < 0x80) s.
Proof.
  induction 1 as [|c s Hc Hs IH]; [done|].
  change (lower (c :: s)) with (lower_cp c ++ lower s).
  intros [Hhead Htail]%Forall_app. constructor; [|by apply IH].
  unfold lower_cp in Hhead.
  destruct (N.leb_spec 0x41 c); destruct (N.leb_spec c 0x5a); cbn [andb] in Hhead;
    try lia;
    (destruct (N.eqb_spec c 0x130); [lia|]);
    (destruct (N.eqb_spec c 0x212a); [lia|]);
    by apply Forall_cons in Hhead as [? _].
Qed.

Lemma bytes_below_256 (m : bytes) : Forall (λ c, c < 256) (map Byte.to_N m).
Proof.
  apply Forall_forall. intros c (b & -> & _)%list_elem_of_fmap.
  pose proof (Byte.to_N_bounded b). lia.
Qed.

Lemma html_indicators_ascii : Forall (Forall (λ c, c < 0x80)) html_indicators.
Proof. repeat constructor. Qed.

End Markers.

(** X23. An HTML marker outranks the spreadsheet signature.  When the
    declared content type decides nothing and the body can be read, a body
    that holds one of the HTML markers, in any mix of upper and lower case,
    within its first 4096 bytes is classified as HTML -- whatever bytes come
    before and after it, a spreadsheet signature or undecodable bytes
    included. *)
Theorem html_marker_outranks_signature r body pre m post indicator :
  content r = Ok body →
  (let content_type := lower (default [] (content_type r)) in
   contains (lit "text/html") content_type
   || contains (lit "application/html") content_type
   || contains (lit "application/vnd.ms-excel") content_type
   || contains (lit "application/excel") content_type) = false →
  body = pre ++ m ++ post →
  (length pre + length m ≤ 4096)%nat →
  indicator ∈ html_indicators →
  lower (map Byte.to_N m) = indicator →
  _detect_content_type r = Ok html.
Proof.
  intros Hbody Hdeclared -> Hlen Hindicator Hlower.
  rewrite (detect_content_type_chain r _ Hbody). cbv zeta in *.
  apply orb_false_elim in Hdeclared as [Hdeclared Hexcel2].
  apply orb_false_elim in Hdeclared as [Hdeclared Hexcel1].
  rewrite Hdeclared, Hexcel1, Hexcel2. cbn [orb].
  assert (Hascii : Forall (λ c, c < 0x80) (map Byte.to_N m)).
  { apply lower_ascii_inv; [apply bytes_below_256|]. rewrite Hlower.
    by apply (proj1 (Forall_forall _ _) html_indicators_ascii). }
  assert (Htake : take 4096 (pre ++ m ++ post)
                  = pre ++ m ++ take (4096 - length pre - length m) post).
  { rewrite take_app_ge by lia. f_equal. rewrite take_app_ge by lia. done. }
  rewrite Htake, !map_app.
  destruct (utf8_items_infix (map Byte.to_N m)
              (map Byte.to_N (take (4096 - length pre - length m) post))
              (map Byte.to_N pre) 0 Hascii) as (front & back & ->); [done|].
  rewrite !omap_app, omap_scalars, !lower_app, Hlower.
  assert (existsb (λ marker, contains marker
                     (lower (omap scalar_of front) ++ indicator
                      ++ lower (omap scalar_of back))) html_indicators = true) as ->.
  { apply existsb_exists. exists indicator. split; [|apply contains_infix].
    by apply list_elem_of_In. }
  done.
Qed.

Lemma html_marker_outranks_signature_witness :
  let body := OLE2_MAGIC ++ [Byte.xff; Byte.x3c; Byte.x54; Byte.x61; Byte.x42; Byte.x4c;
                             Byte.x45; Byte.x20; Byte.x3e] in
  _detect_content_type
    (Response 200 (lit "OK") REPORT_URL (Some (lit "application/octet-stream")) None
       (Ok body) (Raise (Exn JSONDecodeError [])) (λ _, None))
  = Ok html.
Proof.
  intros body.
  refine (html_marker_outranks_signature
            (Response 200 (lit "OK") REPORT_URL (Some (lit "application/octet-stream")) None
               (Ok body) (Raise (Exn JSONDecodeError [])) (λ _, None))
            body (OLE2_MAGIC ++ [Byte.xff])
            [Byte.x3c; Byte.x54; Byte.x61; Byte.x42; Byte.x4c; Byte.x45]
            [Byte.x20; Byte.x3e] (lit "<table") eq_refl _ eq_refl _ _ _).
  - vm_compute. reflexivity.
  - apply (bool_decide_unpack _). vm_compute. exact I.
  - apply (bool_decide_unpack _). vm_compute. exact I.
  - vm_compute. reflexivity.
Defined.

(** ** Names taken from the response header *)

Section HeaderNames.

Lemma splitext_stem_subseteq p c : c ∈ (splitext p).1 → c ∈ p.
Proof. intros H. rewrite <- (splitext_app p). apply elem_of_app. by left. Qed.

Lemma extensions_valid :
  Forall (λ c, (c ∉ lit ".html") ∧ (c ∉ lit ".xls")) invalid_chars.
Proof. apply (bool_decide_unpack _). vm_compute. exact I. Qed.

Lemma header_base_filename_clean r base c :
  header_base_filename r = Some base → c ∈ invalid_chars → c ∉ base.
Proof.
  unfold header_base_filename. destruct (content_disposition r) as [cd|]; [|done].
  destruct (contains (lit "filename=") cd); [|done].
  cbv zeta. intros H%(inj Some) Hc Hin. rewrite <- H in Hin.
  apply splitext_stem_subseteq in Hin. exact (sanitize_clean _ c Hc Hin).
Qed.

End HeaderNames.

(** X24. A name taken from the [Content-Disposition] header cannot leave
    the download directory: when the header yields a non-empty base name,
    the resolved file name holds no path separator and none of the other
    characters the sanitizer replaces. *)
Theorem header_name_has_no_separator w r city_code town_code st base filename c :
  header_base_filename r = Some base →
  base ≠ [] →
  (_get_filename_from_response w r city_code town_code st).1 = Ok filename →
  c ∈ invalid_chars →
  c ∉ filename.
Proof.
  intros Hbase Hne Hname Hc.
  pose proof (header_base_filename_clean r base c Hbase Hc) as Hclean.
  pose proof (proj1 (Forall_forall _ _) extensions_valid c Hc) as [Hhtml Hxls].
  destruct (_detect_content_type r) as [kind|e] eqn:Hkind.
  - rewrite (get_filename_resolved w r city_code town_code st kind Hkind) in Hname.
    rewrite Hbase in Hname. destruct base as [|b base]; [done|]. cbn [fst] in Hname.
    assert (filename = (b :: base) ++ extension_of kind) as -> by congruence.
    intros [Hin|Hin]%elem_of_app; [by apply Hclean|].
    destruct kind; cbn [extension_of] in Hin; by (apply Hhtml || apply Hxls).
  - unfold _get_filename_from_response, lift, mbind, crawl_bind in Hname.
    rewrite Hkind in Hname. discriminate Hname.
Qed.

Lemma header_name_has_no_separator_witness :
  let r := Response 200 (lit "OK") REPORT_URL (Some (lit "text/html"))
             (Some (lit "attachment; filename=..%2F..%2Fetc%2Fcron.d%2Fjob.xls"))
             (Ok []) (Raise (Exn JSONDecodeError [])) (λ _, None) in
  (_get_filename_from_response offline r (JStr (lit "11")) (JStr (lit "1101")) initial_state).1
  = Ok (lit ".._.._etc_cron.d_job.html") ∧
  0x2f ∉ lit ".._.._etc_cron.d_job.html".
Proof.
  intros r. split; [by vm_compute|].
  refine (header_name_has_no_separator offline r (JStr (lit "11")) (JStr (lit "1101"))
            initial_state (lit ".._.._etc_cron.d_job") _ 0x2f eq_refl _ eq_refl _).
  - done.
  - apply (bool_decide_unpack _). vm_compute. exact I.
Defined.

(** ** The pace of the sequential crawl *)

Section Pace.

Variable w : world.
Variable self : crawler.

(** A download adds the events of its request to the trace and nothing
    else. *)
Lemma download_trace city_code city_name town_code town_name st :
  ∃ course,
    course ∈ retry_courses w
               (report_request w self city_code city_name town_code town_name)
               (length (trace st)) ∧
    trace (download_excel_for_location w self city_code city_name town_code town_name st).2
    = trace st ++ course.
Proof.
  destruct (make_request_trace w
              (report_request w self city_code city_name town_code town_name) st)
    as (course & Hcourse & Htrace).
  exists course. split; [done|]. rewrite download_stages.
  unfold report_request in Htrace.
  destruct (_make_request_with_retry w _ st) as [[r|e] st1]; cbn [snd] in Htrace; [|done].
  unfold download_outcome.
  destruct ((_get_filename_from_response w r city_code town_code st1).1) as [filename|e];
    [|done].
  destruct (_file_exists_and_valid (files st1) filename); [done|].
  destruct (open_wb w filename) as [[]|e]; [|done].
  destruct (stream_error r) as [e|]; [done|].
  by destruct (length (received r) <? 512)%nat.
Qed.

End Pace.

(** X25. The sequential crawl is paced.  When the random source stays
    within [0, 1], what the inner loop adds to the trace is, for each
    sub-region in turn, the events of its one request with retries followed
    by one pause of between 0.8 and 1.2 seconds. *)
Theorem crawl_towns_paced w self city town_codes :
  (∀ k, (0 <= random_random w k)%Q ∧ (random_random w k <= 1)%Q) →
  ∀ st,
    ∃ blocks,
      Forall2 (paced_download w self city) town_codes blocks ∧
      trace (crawl_towns w self city town_codes st).2 = trace st ++ concat blocks.
Proof.
  intros Hrandom.
  induction town_codes as [|town town_codes IH]; intros st.
  - exists []. split; [constructor|]. cbn. by rewrite app_nil_r.
  - cbn [crawl_towns]. unfold mbind at 1, crawl_bind at 1.
    destruct (download_trace w self (code city) (name city) (code town) (name town) st)
      as (course & Hcourse & Htrace).
    destruct (download_returns w self (code city) (name city) (code town) (name town) st)
      as (b & st1 & Hrun).
    rewrite Hrun in *. cbn [snd] in Htrace.
    unfold uniform, sleep. unfold mbind at 1 2, crawl_bind at 1 2. cbn [fst snd].
    destruct (IH (State (stats st1) (files st1)
                    (trace st1
                     ++ [Slept (BASE_DELAY
                                + (- (1 # 5) + ((1 # 5) - - (1 # 5))
                                               * random_random w (length (trace st1))))%Q])))
      as (blocks & Hblocks & Hrest).
    set (d := (BASE_DELAY
               + (- (1 # 5) + ((1 # 5) - - (1 # 5))
                              * random_random w (length (trace st1))))%Q) in *.
    exists ((course ++ [Slept d]) :: blocks). split.
    + constructor; [|exact Hblocks].
      exists (length (trace st)), course, d. split; [exact Hcourse|]. split; [reflexivity|].
      destruct (Hrandom (length (trace st1))) as [H0 H1]. subst d. unfold BASE_DELAY.
      split; lra.
    + rewrite Hrest. cbn [trace concat]. rewrite Htrace. by rewrite <- !app_assoc.
Qed.

Lemma crawl_towns_paced_witness :
  let city := Location (JStr (lit "11")) (JStr (lit "Seoul")) in
  let towns := [Location (JStr (lit "1101")) (JStr (lit "Jongno"));
                Location (JStr (lit "1102")) (JStr (lit "Jung"))] in
  ∃ blocks,
    Forall2 (paced_download offline default_crawler city) towns blocks ∧
    trace (crawl_towns offline default_crawler city towns initial_state).2 = concat blocks.
Proof.
  intros city towns.
  refine (crawl_towns_paced offline default_crawler city towns _ initial_state).
  intros k. cbn. split; lra.
Defined.
